(** * opal-fetcher-stripe: the fetch / retry / aggregate pipeline of
  [opal_fetcher_stripe/provider.py], embedded in Rocq.

  The provider is Python.  Its records are JSON documents returned by the
  Stripe client, so the embedding starts with a small model of the Python
  values and built-in operations the provider uses (subscripting, the [in]
  operator, iteration, dict assignment), each with the exception Python
  raises where the operation does not apply.  The provider's own functions
  are then written over that model in an error monad, statement by
  statement. *)

From Stdlib Require Import String Ascii List ZArith Bool Lia.
Import ListNotations.
Local Open Scope string_scope.
Local Open Scope list_scope.

(** ** Python values and built-ins *)

Module Py.

Set Warnings "-register-all".

(** The exceptions that can reach the provider.  [AuthenticationError],
    [APIConnectionError] and [APIError] derive from [StripeError];
    [OtherException] stands for any further subclass of [Exception], named
    by its class name.  [OtherBaseException] stands for the classes that
    derive from [BaseException] but not from [Exception]:
    [asyncio.CancelledError], [KeyboardInterrupt], [SystemExit],
    [GeneratorExit]. *)
Inductive exn : Type :=
| KeyError
| TypeError
| AttributeError
| StripeError
| AuthenticationError
| APIConnectionError
| APIError
| RetryError
| OtherException (class_name : string)
| OtherBaseException (class_name : string).

(** The classes named in [except] clauses and retry predicates. *)
Inductive exn_class : Type :=
| CException
| CAttributeError
| CStripeError
| CAuthenticationError
| CAPIConnectionError.

(** [isinstance(e, c)].  Every class an [except] clause or retry predicate
    names is [Exception] or below it, so none of them has an instance
    outside [Exception]. *)
Definition isinstance (e : exn) (c : exn_class) : bool :=
  match c, e with
  | _, OtherBaseException _ => false
  | CException, _ => true
  | CAttributeError, AttributeError => true
  | CStripeError, (StripeError | AuthenticationError | APIConnectionError | APIError) => true
  | CAuthenticationError, AuthenticationError => true
  | CAPIConnectionError, APIConnectionError => true
  | _, _ => false
  end.

(** A computation that returns a value or raises. *)
Definition result (A : Type) : Type := (exn + A)%type.

Definition ret {A} (a : A) : result A := inr a.
Definition raise {A} (e : exn) : result A := inl e.
Definition bind {A B} (c : result A) (k : A -> result B) : result B :=
  match c with
  | inl e => inl e
  | inr a => k a
  end.

Declare Scope py_scope.
Delimit Scope py_scope with py.
Notation "x <- c ;; k" := (bind c (fun x => k))
  (at level 61, c at next level, right associativity) : py_scope.

(** Hashable values, as they occur as dict keys. *)
Inductive key : Type :=
| KNone
| KBool (b : bool)
| KInt (z : Z)
| KStr (s : string).

(** JSON-shaped Python values.  A dict keeps its insertion order.  Numbers
    are integers (Stripe amounts are in minor units). *)
Inductive value : Type :=
| VNone
| VBool (b : bool)
| VInt (z : Z)
| VStr (s : string)
| VList (l : list value)
| VDict (d : list (key * value)).

Definition dict : Type := list (key * value).

Definition Z_of_bool (b : bool) : Z := if b then 1%Z else 0%Z.

(** Python's [==] on hashable values: [True == 1] and [False == 0]. *)
Definition key_eqb (a b : key) : bool :=
  match a, b with
  | KNone, KNone => true
  | KStr s, KStr t => String.eqb s t
  | KBool x, KBool y => Bool.eqb x y
  | KInt x, KInt y => Z.eqb x y
  | KBool x, KInt y => Z.eqb (Z_of_bool x) y
  | KInt x, KBool y => Z.eqb x (Z_of_bool y)
  | _, _ => false
  end.

(** [hash(v)]: lists and dicts are unhashable. *)
Definition to_key (v : value) : result key :=
  match v with
  | VNone => ret KNone
  | VBool b => ret (KBool b)
  | VInt z => ret (KInt z)
  | VStr s => ret (KStr s)
  | VList _ | VDict _ => raise TypeError
  end.

Definition of_key (k : key) : value :=
  match k with
  | KNone => VNone
  | KBool b => VBool b
  | KInt z => VInt z
  | KStr s => VStr s
  end.

(** [d.get(k)] on the entries of a dict. *)
Fixpoint dict_get (d : dict) (k : key) : option value :=
  match d with
  | [] => None
  | (k', v) :: rest => if key_eqb k' k then Some v else dict_get rest k
  end.

(** [k in d]. *)
Definition dict_mem (d : dict) (k : key) : bool :=
  match dict_get d k with
  | Some _ => true
  | None => false
  end.

(** [d[k] = v]: an equal key keeps its place (and its first spelling) and
    takes the new value; a new key goes to the end. *)
Fixpoint dict_set (d : dict) (k : key) (v : value) : dict :=
  match d with
  | [] => [(k, v)]
  | (k', v') :: rest =>
      if key_eqb k' k then (k', v) :: rest else (k', v') :: dict_set rest k v
  end.

Definition keys (d : dict) : list key := map fst d.

(** [x["name"]] for a string literal [name]. *)
Definition subscript (x : value) (name : string) : result value :=
  match x with
  | VDict d =>
      match dict_get d (KStr name) with
      | Some v => ret v
      | None => raise KeyError
      end
  | _ => raise TypeError
  end.

(** [needle in hay] on strings: [needle] occurs in [hay] as a contiguous
    run of characters; the comparison is exact (case matters). *)
Fixpoint substr (needle hay : string) : bool :=
  String.prefix needle hay
  || match hay with
     | EmptyString => false
     | String _ rest => substr needle rest
     end.

Definition str_eq_value (s : string) (v : value) : bool :=
  match v with
  | VStr t => String.eqb s t
  | _ => false
  end.

(** ["needle" in x] for a string literal [needle]: substring test on a
    string, membership on a list, key membership on a dict; anything else
    is not a container. *)
Definition contains (needle : string) (x : value) : result bool :=
  match x with
  | VStr hay => ret (substr needle hay)
  | VList l => ret (existsb (str_eq_value needle) l)
  | VDict d => ret (dict_mem d (KStr needle))
  | _ => raise TypeError
  end.

(** The items [for item in x] visits. *)
Definition iter (x : value) : result (list value) :=
  match x with
  | VList l => ret l
  | VDict d => ret (map of_key (keys d))
  | VStr s => ret (map (fun c => VStr (String c EmptyString)) (list_ascii_of_string s))
  | _ => raise TypeError
  end.

(** Truthiness, as tested by [if x:]. *)
Definition truthy (x : value) : bool :=
  match x with
  | VNone => false
  | VBool b => b
  | VInt z => negb (Z.eqb z 0)
  | VStr s => negb (String.eqb s "")
  | VList l => match l with [] => false | _ => true end
  | VDict d => match d with [] => false | _ => true end
  end.

End Py.

Import Py.
Local Open Scope py_scope.

(** ** RecordAggregator: [parse_invoice_lines], [update_customer_record],
  [_process_] *)

Module Aggregator.

(** The body of the loop of [parse_invoice_lines].  In
    [result[k] = {...}] Python evaluates the right-hand side first, then
    the subscript [line["price"]["product"]], then stores (hashing the
    key). *)
Fixpoint parse_invoice_lines_loop (lines : list value) (result : dict)
  : Py.result dict :=
  match lines with
  | [] => ret result
  | line :: rest =>
      ty <- subscript line "type" ;;
      amount <- subscript line "amount" ;;
      description <- subscript line "description" ;;
      price <- subscript line "price" ;;
      product <- subscript price "product" ;;
      k <- to_key product ;;
      parse_invoice_lines_loop rest
        (dict_set result k
           (VDict [(KStr "type", ty); (KStr "amount", amount);
                   (KStr "description", description)]))
  end.

Definition parse_invoice_lines (lines : value) : Py.result value :=
  items <- iter lines ;;
  result <- parse_invoice_lines_loop items [] ;;
  ret (VDict result).

(** [update_customer_record(customers, record, record_type, data=None)].
    It mutates [customers]; the model returns the dict after the call.
    [.extend] exists on lists only: on a list it appends the items of
    [data] in place, on any other value the attribute lookup raises. *)
Definition update_customer_record
  (customers : dict) (record : value) (record_type : string) (data : value)
  : Py.result dict :=
  customer <- subscript record "customer" ;;
  data <- match data with
          | VNone =>
              id <- subscript record "id" ;;
              status <- subscript record "status" ;;
              k <- to_key id ;;
              ret (VDict [(k, status)])
          | _ => ret data
          end ;;
  ck <- to_key customer ;;
  match dict_get customers ck with
  | Some entry =>
      sub <- subscript entry record_type ;;
      match sub, entry with
      | VList l, VDict fields =>
          items <- iter data ;;
          ret (dict_set customers ck
                 (VDict (dict_set fields (KStr record_type) (VList (l ++ items)))))
      | _, _ => raise AttributeError
      end
  | None =>
      ret (dict_set customers ck (VDict [(KStr record_type, data)]))
  end.

(** One iteration of the loop of [_process_].  Each [elif] evaluates
    [record["object"]] again; the value is the same, so it is bound once. *)
Definition process_record (processed_records : dict) (record : value)
  : Py.result dict :=
  obj <- subscript record "object" ;;
  is_customer <- contains "customer" obj ;;
  if is_customer then
    id <- subscript record "id" ;;
    email <- subscript record "email" ;;
    k <- to_key email ;;
    ret (dict_set processed_records k (VDict [(KStr "id", id)]))
  else
    is_invoice <- contains "invoice" obj ;;
    if is_invoice then
      status <- subscript record "status" ;;
      paid <- contains "paid" status ;;
      if negb paid then ret processed_records
      else
        lines <- subscript record "lines" ;;
        line_data <- subscript lines "data" ;;
        data <- parse_invoice_lines line_data ;;
        update_customer_record processed_records record "products" data
    else
      is_subscription <- contains "subscription" obj ;;
      if is_subscription then
        status <- subscript record "status" ;;
        active <- contains "active" status ;;
        if negb active then ret processed_records
        else update_customer_record processed_records record "subscriptions" VNone
      else
        is_payment <- contains "payment_intent" obj ;;
        if is_payment then
          status <- subscript record "status" ;;
          succeeded <- contains "succeeded" status ;;
          if negb succeeded then ret processed_records
          else update_customer_record processed_records record "payments" VNone
        else ret processed_records.

Fixpoint process_loop (records : list value) (processed_records : dict)
  : Py.result dict :=
  match records with
  | [] => ret processed_records
  | record :: rest =>
      processed_records' <- process_record processed_records record ;;
      process_loop rest processed_records'
  end.

(** [_process_(records)]: starts from an empty dict and returns it after
    the last record, or raises at the first record that does. *)
Definition _process_ (records : list value) : Py.result dict :=
  process_loop records [].

End Aggregator.

(** ** Configuration objects and the provider's constructor *)

Module Provider.

(** [StripeConnectionParams]: every field has a default, so every field may
    be left out of the configuration; [api_key] defaults to [None]. *)
Record StripeConnectionParams : Type := {
  api_key : option string;
  max_network_retries : option Z;
  log_level : option string;
  enable_telemetry : option bool
}.

(** What a configuration document says about one field: nothing, or a value
    (which may be [null]). *)
Inductive supplied (A : Type) : Type :=
| Omitted
| Given (v : option A).
Arguments Omitted {A}.
Arguments Given {A} v.

Definition with_default {A} (default : option A) (s : supplied A) : option A :=
  match s with
  | Omitted => default
  | Given v => v
  end.

(** Building the model from a configuration document applies the defaults
    of the [Field(...)] declarations. *)
Definition make_StripeConnectionParams
  (k : supplied string) (r : supplied Z) (l : supplied string) (t : supplied bool)
  : StripeConnectionParams :=
  {| api_key := with_default None k;
     max_network_retries := with_default (Some 2%Z) r;
     log_level := with_default (Some "info") l;
     enable_telemetry := with_default (Some true) t |}.

(** [StripeRequestParams]: all fields default to [None]. *)
Record StripeRequestParams : Type := {
  stripe_account : option string;
  stripe_version : option string;
  expand : option (list string)
}.

Definition default_StripeRequestParams : StripeRequestParams :=
  {| stripe_account := None; stripe_version := None; expand := None |}.

Definition field {A} (name : string) (inj : A -> value) (x : option A) : dict :=
  match x with
  | Some a => [(KStr name, inj a)]
  | None => []
  end.

(** [connection_params.dict(exclude_none=True)]. *)
Definition connection_params_dict (p : StripeConnectionParams) : dict :=
  field "api_key" VStr (api_key p)
  ++ field "max_network_retries" VInt (max_network_retries p)
  ++ field "log_level" VStr (log_level p)
  ++ field "enable_telemetry" VBool (enable_telemetry p).

(** [request_params.dict(exclude_none=True)]. *)
Definition request_params_dict (p : StripeRequestParams) : dict :=
  field "stripe_account" VStr (stripe_account p)
  ++ field "stripe_version" VStr (stripe_version p)
  ++ field "expand" (fun l => VList (map VStr l)) (expand p).

Record StripeFetcherConfig : Type := {
  connection_params : StripeConnectionParams;
  request_params : option StripeRequestParams
}.

Record FetchEvent : Type := {
  url : string;
  config : option StripeFetcherConfig
}.

(** The settings of the [stripe] module, which are process-wide. *)
Record stripe_module : Type := {
  stripe_api_key : value;
  stripe_max_network_retries : value;
  stripe_enable_telemetry : value;
  stripe_log : value
}.

Inductive log_level_name : Type := DEBUG | ERROR.

(** One call of the logger: level, message and, where the message is an
    f-string that prints an exception, that exception. *)
Record log_line : Type := {
  line_level : log_level_name;
  line_text : string;
  line_exception : option exn
}.

Definition log_error (text : string) : log_line :=
  {| line_level := ERROR; line_text := text; line_exception := None |}.

(** What the constructor leaves behind: the module settings, the log, and
    the attributes of [self] set so far ([None] until
    [super().__init__(event)] has stored the event). *)
Record world : Type := {
  stripe : stripe_module;
  log : list log_line;
  self_event : option (string * StripeFetcherConfig)
}.

Definition set_stripe (w : world) (s : stripe_module) : world :=
  {| stripe := s; log := log w; self_event := self_event w |}.

(** [StripeFetchProvider.__init__(self, event)].  The outcome is paired
    with the world as the constructor leaves it, also when it raises.
    [super().__init__(event)] stores the event and its url on [self]. *)
Definition __init__ (event : FetchEvent) (w : world) : Py.result unit * world :=
  match config event with
  | None =>
      (ret tt,
       {| stripe := stripe w;
          log := log w ++ [log_error "incomplete fetcher config!"];
          self_event := self_event w |})
  | Some cfg =>
      let cfg :=
        match request_params cfg with
        | None => {| connection_params := connection_params cfg;
                     request_params := Some default_StripeRequestParams |}
        | Some _ => cfg
        end in
      let w := {| stripe := stripe w; log := log w;
                  self_event := Some (url event, cfg) |} in
      let params := VDict (connection_params_dict (connection_params cfg)) in
      match subscript params "api_key" with
      | inl e => (raise e, w)
      | inr k =>
      let w := set_stripe w
        {| stripe_api_key := k;
           stripe_max_network_retries := stripe_max_network_retries (stripe w);
           stripe_enable_telemetry := stripe_enable_telemetry (stripe w);
           stripe_log := stripe_log (stripe w) |} in
      match subscript params "max_network_retries" with
      | inl e => (raise e, w)
      | inr r =>
      let w := if truthy r then set_stripe w
        {| stripe_api_key := stripe_api_key (stripe w);
           stripe_max_network_retries := r;
           stripe_enable_telemetry := stripe_enable_telemetry (stripe w);
           stripe_log := stripe_log (stripe w) |} else w in
      match subscript params "enable_telemetry" with
      | inl e => (raise e, w)
      | inr t =>
      let w := if truthy t then set_stripe w
        {| stripe_api_key := stripe_api_key (stripe w);
           stripe_max_network_retries := stripe_max_network_retries (stripe w);
           stripe_enable_telemetry := t;
           stripe_log := stripe_log (stripe w) |} else w in
      match subscript params "log_level" with
      | inl e => (raise e, w)
      | inr l =>
      let w := if truthy l then set_stripe w
        {| stripe_api_key := stripe_api_key (stripe w);
           stripe_max_network_retries := stripe_max_network_retries (stripe w);
           stripe_enable_telemetry := stripe_enable_telemetry (stripe w);
           stripe_log := l |} else w in
      (ret tt, w)
      end end end end
  end.

End Provider.

(** ** ResourceFetcher: [_fetch_] *)

Module Fetcher.

Import Provider.

(** The line [logger.debug] writes on entry. *)
Definition debug_line (url : string) : log_line :=
  {| line_level := DEBUG;
     line_text := "StripeFetchProvider fetching from " ++ url;
     line_exception := None |}.

Section Remote.

(** The Stripe client.  [stripe_getattr name] is [getattr(stripe, name)],
    [None] when the module has no such attribute; [attr_list a] is the
    [list] method of that attribute, [None] when it has none; calling it
    with the request parameters as keyword arguments returns the response
    or raises. *)
Variable attribute : Type.
Variable stripe_getattr : string -> option attribute.
Variable attr_list : attribute -> option (dict -> Py.result value).

(** The statements inside [try:]. *)
Definition try_body (url : string) (kwargs : dict) : Py.result value :=
  fetch <- match stripe_getattr url with
           | Some a => ret a
           | None => raise AttributeError
           end ;;
  list_call <- match attr_list fetch with
               | Some f => ret f
               | None => raise AttributeError
               end ;;
  response <- list_call kwargs ;;
  subscript response "data".

(** The [except] clauses, in source order: the class each one names and
    the line it logs. *)
Definition handlers : list (exn_class * (exn -> log_line)) :=
  [ (CAttributeError,
     fun _ => log_error "wrong stripe resource, for example 'url':'Customer'");
    (CAuthenticationError,
     fun _ => log_error "wrong stripe api_key");
    (CAPIConnectionError,
     fun e => {| line_level := ERROR; line_text := "stripe connection error: ";
                 line_exception := Some e |});
    (CException,
     fun e => {| line_level := ERROR;
                 line_text := "stripe fetch unhandled exception: ";
                 line_exception := Some e |}) ].

(** The first clause whose class the exception is an instance of. *)
Fixpoint find_handler (hs : list (exn_class * (exn -> log_line))) (e : exn)
  : option (exn -> log_line) :=
  match hs with
  | [] => None
  | (c, h) :: rest => if isinstance e c then Some h else find_handler rest e
  end.

(** [_fetch_(self)], for the url and request parameters stored on [self]:
    the outcome and the lines logged.  [result] starts as the empty list and
    is only assigned by the last statement of the [try] body; an exception
    no clause catches would propagate. *)
Definition _fetch_ (url : string) (params : StripeRequestParams)
  : Py.result value * list log_line :=
  let debug := debug_line url in
  let request_params := request_params_dict params in
  let result := VList [] in
  match try_body url request_params with
  | inr data => (ret data, [debug])
  | inl e =>
      match find_handler handlers e with
      | Some h => (ret result, [debug; h e])
      | None => (raise e, [debug])
      end
  end.

End Remote.

End Fetcher.

(** ** RetryPolicy: [RETRY_CONFIG] *)

Module Retry.

(** The waiting strategies named by a retry configuration.  The length of a
    wait is random and is not modelled; the trace records that it happened. *)
Inductive wait_strategy : Type :=
| wait_random_exponential.

(** The retry predicates named by a retry configuration. *)
Inductive retry_predicate : Type :=
| retry_unless_exception_type (c : exn_class).

(** A retry configuration, with the four entries of [RETRY_CONFIG]. *)
Record config : Type := {
  wait : wait_strategy;
  stop_after_attempt : nat;
  retry : retry_predicate;
  reraise : bool
}.

(** [StripeFetchProvider.RETRY_CONFIG]. *)
Definition RETRY_CONFIG : config :=
  {| wait := wait_random_exponential;
     stop_after_attempt := 10;
     retry := retry_unless_exception_type CStripeError;
     reraise := true |}.

(** What the policy does, in order: invoke the operation (attempt number,
    from 1) or wait before the next attempt. *)
Inductive event : Type :=
| Attempt (n : nat)
| Sleep (w : wait_strategy) (after_attempt : nat).

Definition invocations (trace : list event) : nat :=
  length (filter (fun ev => match ev with Attempt _ => true | Sleep _ _ => false end) trace).

Section Execute.

Variable T : Type.

(** What the retry predicate answers for an attempt that returned without
    raising.  The specification describes the policy on raised errors only;
    this is left open and every result below holds for either answer. *)
Variable retry_after_return : bool.

(** The operation: the outcome of its n-th invocation. *)
Variable operation : nat -> Py.result T.

Definition should_retry (p : retry_predicate) (outcome : Py.result T) : bool :=
  match p, outcome with
  | retry_unless_exception_type c, inl e => negb (isinstance e c)
  | retry_unless_exception_type _, inr _ => retry_after_return
  end.

(** Modelled from the spec: the executor that applies a retry configuration
    to an operation is not under src/ (the source only declares
    [RETRY_CONFIG]; the loop belongs to the retry library the host framework
    calls).  Following section 4.1: an outcome the predicate does not want
    retried is final (a raised error of the terminal family is re-raised at
    once); otherwise, once the attempt bound is reached the policy stops and,
    with [reraise], re-raises the last error unchanged; otherwise it waits
    and tries again.  [fuel] bounds the number of attempts the model runs;
    [None] means the fuel ran out. *)
Fixpoint execute_from (cfg : config) (fuel : nat) (attempt_number : nat)
  : option (Py.result T) * list event :=
  match fuel with
  | O => (None, [])
  | S fuel' =>
      let outcome := operation attempt_number in
      if negb (should_retry (retry cfg) outcome) then
        (Some outcome, [Attempt attempt_number])
      else if Nat.leb (stop_after_attempt cfg) attempt_number then
        (Some (match outcome with
               | inl e => if reraise cfg then raise e else raise RetryError
               | inr _ => raise RetryError
               end),
         [Attempt attempt_number])
      else
        let '(r, trace) := execute_from cfg fuel' (S attempt_number) in
        (r, Attempt attempt_number :: Sleep (wait cfg) attempt_number :: trace)
  end.

Definition execute (cfg : config) (fuel : nat) : option (Py.result T) * list event :=
  execute_from cfg fuel 1.

End Execute.

End Retry.

(** ** The specification's reading of the dispatch, for comparison *)

Module Kinds.

Inductive kind : Type :=
| Account
| Invoice
| Subscription
| Payment
| Unrecognized.

(** The kind of a discriminator under exact (case-sensitive) containment,
    in the priority order account, invoice, subscription, payment. *)
Definition kind_of (discriminator : string) : kind :=
  if substr "customer" discriminator then Account
  else if substr "invoice" discriminator then Invoice
  else if substr "subscription" discriminator then Subscription
  else if substr "payment_intent" discriminator then Payment
  else Unrecognized.

Definition lower_ascii (c : ascii) : ascii :=
  let n := nat_of_ascii c in
  if (Nat.leb 65 n && Nat.leb n 90)%bool then ascii_of_nat (n + 32) else c.

Fixpoint lower (s : string) : string :=
  match s with
  | EmptyString => EmptyString
  | String c rest => String (lower_ascii c) (lower rest)
  end.

(** The dispatch in the specification's words: containment tested without
    regard to case, same priority order. *)
Definition kind_of_ignoring_case (discriminator : string) : kind :=
  kind_of (lower discriminator).

(** The word the status filter of a kind looks for. *)
Definition status_word (k : kind) : option string :=
  match k with
  | Invoice => Some "paid"
  | Subscription => Some "active"
  | Payment => Some "succeeded"
  | Account | Unrecognized => None
  end.

(** The sub-collection a kind contributes to. *)
Definition record_type (k : kind) : option string :=
  match k with
  | Invoice => Some "products"
  | Subscription => Some "subscriptions"
  | Payment => Some "payments"
  | Account | Unrecognized => None
  end.

(** A qualifying record: an invoice, subscription or payment whose status
    passes the filter of its kind. *)
Definition qualifying (record : value) : bool :=
  match subscript record "object", subscript record "status" with
  | inr (VStr o), inr (VStr s) =>
      match status_word (kind_of o) with
      | Some w => substr w s
      | None => false
      end
  | _, _ => false
  end.

(** The kinds with a status filter: the word looked for and the
    sub-collection contributed to. *)
Definition filtered_kinds : list (kind * string * string) :=
  [ (Invoice, "paid", "products");
    (Subscription, "active", "subscriptions");
    (Payment, "succeeded", "payments") ].

(** The three sub-collections of a customer entry. *)
Definition record_types : list string := ["products"; "subscriptions"; "payments"].

(** The [data] argument a kind passes to [update_customer_record]: the
    decomposed line items for an invoice, the default otherwise. *)
Definition contribution (k : kind) (record : value) : Py.result value :=
  match k with
  | Invoice =>
      lines <- subscript record "lines" ;;
      line_data <- subscript lines "data" ;;
      Aggregator.parse_invoice_lines line_data
  | _ => ret VNone
  end.

(** The rule of the account kind: the entry under the record's email
    becomes [{"id": <record id>}]. *)
Definition account_rule (agg : dict) (record : value) : Py.result dict :=
  id <- subscript record "id" ;;
  email <- subscript record "email" ;;
  k <- to_key email ;;
  ret (dict_set agg k (VDict [(KStr "id", id)])).

(** The per-kind rules of the table of section 4.3: the status filter, then
    the action. *)
Definition kind_rule (k : kind) (agg : dict) (record : value) : Py.result dict :=
  match k, status_word k, record_type k with
  | Account, _, _ => account_rule agg record
  | _, Some word, Some rt =>
      status <- subscript record "status" ;;
      pass <- contains word status ;;
      if negb pass then ret agg
      else
        data <- contribution k record ;;
        Aggregator.update_customer_record agg record rt data
  | _, _, _ => ret agg
  end.

(** How many top-level entries of an aggregate sit under a key. *)
Definition entries_for (k : key) (agg : dict) : nat :=
  length (filter (fun kv => key_eqb (fst kv) k) agg).

(** Every key of a dict differs from the keys after it. *)
Fixpoint distinct_keys (d : dict) : bool :=
  match d with
  | [] => true
  | (k, _) :: rest => negb (dict_mem rest k) && distinct_keys rest
  end.

(** The shapes of the entries [_process_] stores: [{"id": v}] from an
    account record, or one sub-collection holding a dict. *)
Definition entry_shape (v : value) : Prop :=
  (exists id, v = VDict [(KStr "id", id)])
  \/ (exists rt d, In rt record_types /\ v = VDict [(KStr rt, VDict d)]).

Definition shaped (agg : dict) : Prop :=
  Forall (fun kv => entry_shape (snd kv)) agg.

(** The [data] arguments [_process_] passes: [None] (the default, replaced
    by [{id: status}]) or a dict of line items. *)
Definition is_dict_or_None (data : value) : Prop :=
  data = VNone \/ exists d, data = VDict d.

End Kinds.

(** ** Concrete records *)

Module Examples.

(** A JSON object with string keys. *)
Definition obj (fields : list (string * value)) : value :=
  VDict (map (fun p => (KStr (fst p), snd p)) fields).

Definition account_record (email id : string) : value :=
  obj [("object", VStr "customer"); ("email", VStr email); ("id", VStr id)].

Definition invoice_record (object customer status : string) (lines : list value)
  : value :=
  obj [("object", VStr object); ("customer", VStr customer);
       ("status", VStr status); ("lines", obj [("data", VList lines)])].

(** A subscription or payment record. *)
Definition status_record (object customer id status : string) : value :=
  obj [("object", VStr object); ("customer", VStr customer);
       ("id", VStr id); ("status", VStr status)].

Definition widget_line : value :=
  obj [("price", obj [("product", VStr "prod_1")]); ("type", VStr "invoiceitem");
       ("amount", VInt 500); ("description", VStr "Widget")].

Definition widget_products : dict :=
  [(KStr "prod_1",
    VDict [(KStr "type", VStr "invoiceitem"); (KStr "amount", VInt 500);
           (KStr "description", VStr "Widget")])].

(** The three records of the end-to-end scenario. *)
Definition scenario : list value :=
  [ account_record "a@x.com" "cus_1";
    invoice_record "invoice" "cus_1" "paid" [widget_line];
    status_record "subscription" "cus_1" "sub_1" "active" ].

End Examples.

(** ** Reading aids for the aggregator *)

Module Contributions.

Import Kinds.

(** What one pass of the loop of [parse_invoice_lines] computes from a
    line before storing it: the product key and the three-field value, with
    the subscripts in the order Python evaluates them. *)
Definition line_entry (line : value) : Py.result (key * value) :=
  ty <- subscript line "type" ;;
  amount <- subscript line "amount" ;;
  description <- subscript line "description" ;;
  price <- subscript line "price" ;;
  product <- subscript price "product" ;;
  k <- to_key product ;;
  ret (k, VDict [(KStr "type", ty); (KStr "amount", amount);
                 (KStr "description", description)]).

(** The value [parse_invoice_lines] stores for a product. *)
Definition line_value_shape (v : value) : Prop :=
  exists ty amount description,
    v = VDict [(KStr "type", ty); (KStr "amount", amount);
               (KStr "description", description)].


(** The data [update_customer_record] ends up storing for a record of a
    kind: the decomposed lines of an invoice, [{id: status}] otherwise. *)
Definition stored_data (k : kind) (record : value) : Py.result value :=
  match k with
  | Invoice => contribution Invoice record
  | _ =>
      id <- subscript record "id" ;;
      status <- subscript record "status" ;;
      idk <- to_key id ;;
      ret (VDict [(idk, status)])
  end.

(** The entry a qualifying record creates when its customer is new: the
    customer key and the one sub-collection of the record's kind.  [None]
    for a record that does not qualify or is not well formed. *)
Definition new_entry (record : value) : option (key * value) :=
  match subscript record "object", subscript record "customer" with
  | inr (VStr o), inr customer =>
      match record_type (kind_of o), to_key customer,
            stored_data (kind_of o) record with
      | Some rt, inr ck, inr (VDict d) =>
          if qualifying record then Some (ck, VDict [(KStr rt, VDict d)]) else None
      | _, _, _ => None
      end
  | _, _ => None
  end.

End Contributions.

(** ** Reading aids for the retry trace *)

Module RetryTrace.

(** How many waits a trace holds. *)
Definition waits (trace : list Retry.event) : nat :=
  length (filter (fun ev => match ev with
                            | Retry.Sleep _ _ => true
                            | Retry.Attempt _ => false
                            end) trace).

End RetryTrace.

(** * Properties *)

(** ** Facts about the Python built-ins *)

Module PyFacts.

Import Kinds.

Lemma bind_inr {A B} (c : Py.result A) (k : A -> Py.result B) (b : B) :
  bind c k = inr b -> exists a, c = inr a /\ k a = inr b.
Proof.
  destruct c as [e | a]; simpl; intros H.
  - discriminate.
  - now exists a.
Qed.

Lemma key_eqb_refl (k : key) : key_eqb k k = true.
Proof.
  destruct k; simpl; auto.
  - apply Bool.eqb_reflx.
  - apply Z.eqb_refl.
  - apply String.eqb_refl.
Qed.

Lemma key_eqb_sym (a b : key) : key_eqb a b = key_eqb b a.
Proof.
  destruct a, b; simpl; auto.
  - destruct b0, b; reflexivity.
  - apply Z.eqb_sym.
  - apply Z.eqb_sym.
  - apply Z.eqb_sym.
  - apply String.eqb_sym.
Qed.

Lemma key_eqb_trans (a b c : key) :
  key_eqb a b = true -> key_eqb b c = true -> key_eqb a c = true.
Proof.
  destruct a, b, c; simpl; try discriminate; auto;
    rewrite ?Z.eqb_eq, ?String.eqb_eq, ?Bool.eqb_true_iff;
    try congruence;
    repeat match goal with b : bool |- _ => destruct b end;
    simpl; intros; subst; simpl in *; congruence.
Qed.

(** Equal keys are interchangeable on the right of a comparison. *)
Lemma key_eqb_congr (a b c : key) :
  key_eqb a b = true -> key_eqb a c = key_eqb b c.
Proof.
  intros Hab.
  destruct (key_eqb b c) eqn:Hbc.
  - eapply key_eqb_trans; eassumption.
  - destruct (key_eqb a c) eqn:Hac; auto.
    rewrite <- Hbc. symmetry.
    eapply key_eqb_trans; [rewrite key_eqb_sym; eassumption | assumption].
Qed.

Lemma dict_get_congr (d : dict) (a b : key) :
  key_eqb a b = true -> dict_get d a = dict_get d b.
Proof.
  intros E.
  induction d as [| [k0 v0] rest IH]; simpl; auto.
  rewrite (key_eqb_sym k0 a), (key_eqb_sym k0 b).
  rewrite (key_eqb_congr a b k0 E), IH. reflexivity.
Qed.

Lemma dict_get_set_same (d : dict) (k : key) (v : value) :
  dict_get (dict_set d k v) k = Some v.
Proof.
  induction d as [| [k' v'] rest IH]; simpl.
  - now rewrite key_eqb_refl.
  - destruct (key_eqb k' k) eqn:E; simpl; rewrite E; auto.
Qed.

Lemma dict_get_set_other (d : dict) (k k' : key) (v : value) :
  key_eqb k k' = false -> dict_get (dict_set d k v) k' = dict_get d k'.
Proof.
  intros Hne.
  induction d as [| [k0 v0] rest IH]; simpl.
  - now rewrite Hne.
  - destruct (key_eqb k0 k) eqn:E; simpl.
    + rewrite (key_eqb_congr k0 k k' E), Hne. reflexivity.
    + destruct (key_eqb k0 k'); auto.
Qed.

Lemma dict_mem_set_other (d : dict) (k k' : key) (v : value) :
  key_eqb k k' = false -> dict_mem (dict_set d k v) k' = dict_mem d k'.
Proof.
  intros Hne. unfold dict_mem. now rewrite dict_get_set_other.
Qed.

(** Assigning under a key that is absent appends the entry. *)
Lemma dict_set_absent (d : dict) (k : key) (v : value) :
  dict_get d k = None -> dict_set d k v = d ++ [(k, v)].
Proof.
  induction d as [| [k' v'] rest IH]; simpl; intros H.
  - reflexivity.
  - destruct (key_eqb k' k); [discriminate |].
    now rewrite IH.
Qed.

Lemma distinct_keys_set (d : dict) (k : key) (v : value) :
  distinct_keys d = true -> distinct_keys (dict_set d k v) = true.
Proof.
  induction d as [| [k' v'] rest IH]; simpl; intros H.
  - reflexivity.
  - apply andb_true_iff in H as [Hm Hd].
    destruct (key_eqb k' k) eqn:E; simpl.
    + now rewrite Hm, Hd.
    + rewrite dict_mem_set_other by (now rewrite key_eqb_sym).
      now rewrite Hm, IH.
Qed.

Lemma entries_for_absent (d : dict) (k : key) :
  dict_mem d k = false -> entries_for k d = 0.
Proof.
  unfold dict_mem, entries_for.
  induction d as [| [k' v'] rest IH]; simpl; intros H.
  - reflexivity.
  - destruct (key_eqb k' k); [discriminate | auto].
Qed.

Lemma distinct_keys_entries (d : dict) (k : key) :
  distinct_keys d = true -> entries_for k d <= 1.
Proof.
  induction d as [| [k' v'] rest IH]; simpl; intros H.
  - unfold entries_for; simpl; lia.
  - apply andb_true_iff in H as [Hm Hd].
    apply negb_true_iff in Hm.
    unfold entries_for in *; simpl.
    destruct (key_eqb k' k) eqn:E; simpl.
    + assert (Hk : dict_mem rest k = false).
      { unfold dict_mem in *. now rewrite <- (dict_get_congr rest k' k E). }
      pose proof (entries_for_absent rest k Hk) as Hz.
      unfold entries_for in Hz. lia.
    + auto.
Qed.

Lemma shaped_set (agg : dict) (k : key) (v : value) :
  shaped agg -> entry_shape v -> shaped (dict_set agg k v).
Proof.
  unfold shaped. intros Hd Hv.
  induction Hd as [| [k' v'] rest Hx Hrest IH]; simpl.
  - constructor; [assumption | constructor].
  - destruct (key_eqb k' k); constructor; assumption.
Qed.

Lemma shaped_get (agg : dict) (k : key) (v : value) :
  shaped agg -> dict_get agg k = Some v -> entry_shape v.
Proof.
  unfold shaped. intros Hd.
  induction Hd as [| [k' v'] rest Hx Hrest IH]; simpl; intros G.
  - discriminate.
  - destruct (key_eqb k' k).
    + injection G as <-. exact Hx.
    + auto.
Qed.


Lemma prefix_inv (n h : string) :
  String.prefix n h = true -> exists post, h = (n ++ post)%string.
Proof.
  revert h. induction n as [| c n IH]; intros h H.
  - now exists h.
  - destruct h as [| c' h]; simpl in H; [discriminate |].
    destruct (ascii_dec c c') as [-> | _]; [| discriminate].
    destruct (IH h H) as [post ->]. now exists post.
Qed.



Lemma substr_inv (n h : string) :
  substr n h = true -> exists pre post, h = (pre ++ n ++ post)%string.
Proof.
  induction h as [| c h IH]; cbn [substr]; intros H.
  - apply orb_true_iff in H as [H | H]; [| discriminate].
    destruct (prefix_inv _ _ H) as [post E]. now exists EmptyString, post.
  - apply orb_true_iff in H as [H | H].
    + destruct (prefix_inv _ _ H) as [post E]. now exists EmptyString, post.
    + destruct (IH H) as (pre & post & ->). now exists (String c pre), post.
Qed.

End PyFacts.

(** ** Facts about the aggregator *)

Module AggregatorFacts.

Import Kinds PyFacts Aggregator.

(** Splits a successful sequence of statements into its steps. *)
Ltac step_binds :=
  repeat match goal with
         | H : bind ?c _ = inr _ |- _ =>
             let a := fresh "x" in
             let Ha := fresh "Hx" in
             apply bind_inr in H as (a & Ha & H)
         | H : ret _ = inr _ |- _ => injection H as H
         | H : (if ?b then _ else _) = inr _ |- _ => destruct b eqn:?
         end.

Lemma process_loop_app (pre post : list value) (acc : dict) :
  process_loop (pre ++ post) acc = bind (process_loop pre acc) (process_loop post).
Proof.
  revert acc. induction pre as [| r pre IH]; intros acc; simpl.
  - reflexivity.
  - destruct (process_record acc r) as [e | acc']; simpl; auto.
Qed.

(** On a string discriminator the if-chain of [_process_] is the table of
    rules, read with exact containment. *)
Lemma process_record_kind_rule (agg : dict) (record : value) (o : string) :
  subscript record "object" = inr (VStr o) ->
  process_record agg record = kind_rule (kind_of o) agg record.
Proof.
  intros Ho. unfold process_record, kind_of. rewrite Ho. cbn [bind contains ret].
  destruct (substr "customer" o); [reflexivity |].
  destruct (substr "invoice" o).
  { cbn [kind_rule status_word record_type contribution].
    destruct (subscript record "status") as [e | st]; cbn [bind]; [reflexivity |].
    destruct (contains "paid" st) as [e | b]; cbn [bind]; [reflexivity |].
    destruct b; cbn [negb]; [| reflexivity].
    destruct (subscript record "lines") as [e | ls]; cbn [bind]; [reflexivity |].
    destruct (subscript ls "data") as [e | ld]; cbn [bind]; reflexivity. }
  destruct (substr "subscription" o); [reflexivity |].
  destruct (substr "payment_intent" o); reflexivity.
Qed.

Lemma parse_invoice_lines_dict (lines v : value) :
  parse_invoice_lines lines = inr v -> exists d, v = VDict d.
Proof.
  unfold parse_invoice_lines. intros H. step_binds. subst. eauto.
Qed.

Lemma subscript_shape (entry : value) (rt : string) :
  entry_shape entry -> In rt record_types ->
  subscript entry rt = inl KeyError \/ exists d, subscript entry rt = inr (VDict d).
Proof.
  intros [[id ->] | (rt' & d & Hin & ->)] Hrt; simpl.
  - left. simpl in Hrt.
    destruct Hrt as [<- | [<- | [<- | []]]]; reflexivity.
  - destruct (String.eqb rt' rt); [right; eauto | left; reflexivity].
Qed.

(** With the customer already present, [update_customer_record] raises:
    the stored entry lacks the sub-collection, or the sub-collection is a
    dict and has no [extend]. *)
Lemma update_existing_raises (agg : dict) (record customer : value) (ck : key)
  (rt : string) (data : value) :
  shaped agg ->
  In rt record_types ->
  subscript record "customer" = inr customer ->
  to_key customer = inr ck ->
  dict_mem agg ck = true ->
  exists e, update_customer_record agg record rt data = inl e
            /\ (data <> VNone -> e = AttributeError \/ e = KeyError).
Proof.
  intros Hs Hrt Hc Hk Hm.
  unfold update_customer_record. rewrite Hc. cbn [bind].
  unfold dict_mem in Hm.
  destruct (dict_get agg ck) as [entry |] eqn:G; [| discriminate].
  assert (Hentry := shaped_get _ _ _ Hs G).
  assert (Htail : forall data',
    exists e, (ck0 <- to_key customer ;;
               match dict_get agg ck0 with
               | Some entry =>
                   sub <- subscript entry rt ;;
                   match sub, entry with
                   | VList l, VDict fields =>
                       items <- iter data' ;;
                       ret (dict_set agg ck0
                              (VDict (dict_set fields (KStr rt) (VList (l ++ items)))))
                   | _, _ => raise AttributeError
                   end
               | None => ret (dict_set agg ck0 (VDict [(KStr rt, data')]))
               end) = inl e /\ (e = AttributeError \/ e = KeyError)).
  { intros data'. rewrite Hk. cbn [bind]. rewrite G.
    destruct (subscript_shape entry rt Hentry Hrt) as [-> | [d ->]]; cbn [bind].
    - exists KeyError. auto.
    - exists AttributeError. auto. }
  destruct data.
  - destruct (subscript record "id") as [e | id]; cbn [bind].
    { exists e. split; [reflexivity | congruence]. }
    destruct (subscript record "status") as [e | st]; cbn [bind].
    { exists e. split; [reflexivity | congruence]. }
    destruct (to_key id) as [e | k]; cbn [bind ret].
    { exists e. split; [reflexivity | congruence]. }
    destruct (Htail (VDict [(k, st)])) as (e & -> & _).
    exists e. split; [reflexivity | congruence].
  - cbn [bind ret]. destruct (Htail (VBool b)) as (e & -> & He). eauto.
  - cbn [bind ret]. destruct (Htail (VInt z)) as (e & -> & He). eauto.
  - cbn [bind ret]. destruct (Htail (VStr s)) as (e & -> & He). eauto.
  - cbn [bind ret]. destruct (Htail (VList l)) as (e & -> & He). eauto.
  - cbn [bind ret]. destruct (Htail (VDict d)) as (e & -> & He). eauto.
Qed.

(** With the customer absent, it appends a fresh entry holding only the
    contribution. *)
Lemma update_new_customer (agg : dict) (record customer : value) (ck : key)
  (rt : string) (d : dict) :
  subscript record "customer" = inr customer ->
  to_key customer = inr ck ->
  dict_mem agg ck = false ->
  update_customer_record agg record rt (VDict d)
  = inr (agg ++ [(ck, VDict [(KStr rt, VDict d)])]).
Proof.
  intros Hc Hk Hm. unfold update_customer_record.
  rewrite Hc. cbn [bind ret]. rewrite Hk. cbn [bind].
  unfold dict_mem in Hm.
  destruct (dict_get agg ck) eqn:G; [discriminate |].
  now rewrite dict_set_absent.
Qed.

Lemma update_preserves (agg agg' : dict) (record : value) (rt : string) (data : value) :
  shaped agg -> distinct_keys agg = true ->
  In rt record_types -> is_dict_or_None data ->
  update_customer_record agg record rt data = inr agg' ->
  shaped agg' /\ distinct_keys agg' = true.
Proof.
  intros Hs Hd Hrt Hdata H.
  unfold update_customer_record in H.
  apply bind_inr in H as (customer & Hc & H).
  apply bind_inr in H as (data' & Hdata' & H).
  apply bind_inr in H as (ck & Hk & H).
  assert (exists d, data' = VDict d) as [d ->].
  { destruct Hdata as [-> | [d ->]].
    - step_binds. subst. eauto.
    - injection Hdata' as <-. eauto. }
  destruct (dict_get agg ck) as [entry |] eqn:G.
  - exfalso.
    assert (Hm : dict_mem agg ck = true) by (unfold dict_mem; now rewrite G).
    destruct (update_existing_raises agg record customer ck rt (VDict d)
                Hs Hrt Hc Hk Hm) as (e & He & _).
    unfold update_customer_record in He. rewrite Hc in He. cbn [bind ret] in He.
    rewrite Hk in He. cbn [bind] in He. rewrite G in He. congruence.
  - injection H as <-. split.
    + apply shaped_set; auto. right. exists rt, d. auto.
    + now apply distinct_keys_set.
Qed.

(** Every record keeps the aggregate well formed: keys stay distinct and
    entries keep one of the two shapes. *)
Lemma process_record_preserves (agg agg' : dict) (record : value) :
  shaped agg -> distinct_keys agg = true ->
  process_record agg record = inr agg' ->
  shaped agg' /\ distinct_keys agg' = true.
Proof.
  intros Hs Hd H. unfold process_record in H.
  apply bind_inr in H as (obj & _ & H).
  apply bind_inr in H as (b1 & _ & H).
  destruct b1.
  { step_binds. subst. split.
    - apply shaped_set; auto. left. eauto.
    - now apply distinct_keys_set. }
  apply bind_inr in H as (b2 & _ & H).
  destruct b2.
  { apply bind_inr in H as (st & _ & H).
    apply bind_inr in H as (paid & _ & H).
    destruct (negb paid).
    - injection H as <-. auto.
    - apply bind_inr in H as (ls & _ & H).
      apply bind_inr in H as (ld & _ & H).
      apply bind_inr in H as (data & Hp & H).
      apply parse_invoice_lines_dict in Hp as [d ->].
      eapply update_preserves; try eassumption.
      + simpl; auto.
      + right; eauto. }
  apply bind_inr in H as (b3 & _ & H).
  destruct b3.
  { apply bind_inr in H as (st & _ & H).
    apply bind_inr in H as (active & _ & H).
    destruct (negb active).
    - injection H as <-. auto.
    - eapply update_preserves; try eassumption.
      + simpl; auto.
      + left; reflexivity. }
  apply bind_inr in H as (b4 & _ & H).
  destruct b4.
  { apply bind_inr in H as (st & _ & H).
    apply bind_inr in H as (ok & _ & H).
    destruct (negb ok).
    - injection H as <-. auto.
    - eapply update_preserves; try eassumption.
      + simpl; auto.
      + left; reflexivity. }
  injection H as <-. auto.
Qed.

Lemma process_loop_preserves (records : list value) (agg agg' : dict) :
  shaped agg -> distinct_keys agg = true ->
  process_loop records agg = inr agg' ->
  shaped agg' /\ distinct_keys agg' = true.
Proof.
  revert agg. induction records as [| r rest IH]; intros agg Hs Hd H; simpl in H.
  - injection H as <-. auto.
  - apply bind_inr in H as (agg1 & H1 & H).
    destruct (process_record_preserves _ _ _ Hs Hd H1) as [Hs1 Hd1].
    eauto.
Qed.

Lemma _process_preserves (records : list value) (agg : dict) :
  _process_ records = inr agg -> shaped agg /\ distinct_keys agg = true.
Proof.
  apply process_loop_preserves; [constructor | reflexivity].
Qed.

(** A record that leaves the aggregate as it is might as well be absent. *)
Lemma skip_record (pre post : list value) (record : value) :
  (forall agg, process_record agg record = inr agg) ->
  _process_ (pre ++ record :: post) = _process_ (pre ++ post).
Proof.
  intros Hskip. unfold _process_. rewrite !process_loop_app.
  destruct (process_loop pre []) as [e | agg]; simpl; auto.
  now rewrite Hskip.
Qed.

End AggregatorFacts.

(** ** The aggregator against its specification *)

Module AggregatorSpec.

Import Kinds PyFacts Aggregator AggregatorFacts Examples.

Lemma filtered_kinds_table (k : kind) (word rt : string) :
  In (k, word, rt) filtered_kinds ->
  status_word k = Some word /\ record_type k = Some rt /\ In rt record_types.
Proof.
  simpl. intros [H | [H | [H | []]]]; injection H as <- <- <-; simpl; tauto.
Qed.

Lemma kind_rule_filtered (agg : dict) (record : value) (k : kind) (word rt s : string) :
  In (k, word, rt) filtered_kinds ->
  subscript record "status" = inr (VStr s) ->
  kind_rule k agg record =
    if substr word s
    then (data <- contribution k record ;; update_customer_record agg record rt data)
    else ret agg.
Proof.
  simpl. intros [H | [H | [H | []]]] Hs; injection H as <- <- <-;
    cbn [kind_rule status_word record_type]; rewrite Hs; cbn [bind contains ret];
    now destruct (substr _ s).
Qed.

(** C1 (as stated, refuted): a later account record does not merge into the
    entry stored under its key, it replaces it.  After a paid invoice for
    customer "k" the aggregate holds that customer's products; an account
    record whose email is "k" leaves only [{"id": "cus_9"}] there.  Likewise
    a second account record for the same email replaces the first. *)
Lemma account_record_replaces_entry :
  _process_ [invoice_record "invoice" "k" "paid" [widget_line]]
  = inr [(KStr "k", VDict [(KStr "products", VDict widget_products)])]
  /\ _process_ [invoice_record "invoice" "k" "paid" [widget_line];
                account_record "k" "cus_9"]
     = inr [(KStr "k", VDict [(KStr "id", VStr "cus_9")])]
  /\ _process_ [account_record "a@x.com" "cus_1"; account_record "a@x.com" "cus_2"]
     = inr [(KStr "a@x.com", VDict [(KStr "id", VStr "cus_2")])].
Proof. repeat split; reflexivity. Qed.

(** C1 (amended): whenever aggregation returns, the aggregate holds at most
    one top-level entry per key; and an account record processed next
    creates or replaces the entry under its email with [{"id": <record id>}],
    whatever was stored there, leaving every other entry as it was. *)
Theorem one_entry_per_key_account_overwrites :
  forall (records : list value) (agg : dict),
    _process_ records = inr agg ->
    (forall k, entries_for k agg <= 1)
    /\ (forall record o id email k,
          subscript record "object" = inr (VStr o) ->
          kind_of o = Account ->
          subscript record "id" = inr id ->
          subscript record "email" = inr email ->
          to_key email = inr k ->
          exists agg',
            _process_ (records ++ [record]) = inr agg'
            /\ dict_get agg' k = Some (VDict [(KStr "id", id)])
            /\ (forall k', key_eqb k k' = false -> dict_get agg' k' = dict_get agg k')
            /\ (forall k', entries_for k' agg' <= 1)).
Proof.
  intros records agg H.
  destruct (_process_preserves _ _ H) as [Hs Hd].
  split.
  - intros k. now apply distinct_keys_entries.
  - intros record o id email k Ho Hk Hid Hem Hkey.
    exists (dict_set agg k (VDict [(KStr "id", id)])).
    repeat split.
    + unfold _process_ in *. rewrite process_loop_app, H. cbn [bind process_loop].
      rewrite (process_record_kind_rule _ _ _ Ho), Hk.
      cbn [kind_rule]. unfold account_rule. rewrite Hid, Hem. cbn [bind].
      rewrite Hkey. reflexivity.
    + apply dict_get_set_same.
    + intros k' Hne. now apply dict_get_set_other.
    + intros k'. apply distinct_keys_entries. now apply distinct_keys_set.
Qed.

Lemma one_entry_per_key_account_overwrites_witness :
  _process_ [invoice_record "invoice" "k" "paid" [widget_line]]
  = inr [(KStr "k", VDict [(KStr "products", VDict widget_products)])]
  /\ forall k,
       entries_for k [(KStr "k", VDict [(KStr "products", VDict widget_products)])] <= 1.
Proof.
  split; [reflexivity |].
  apply (one_entry_per_key_account_overwrites
           [invoice_record "invoice" "k" "paid" [widget_line]]).
  reflexivity.
Defined.

(** C2: on the three records of the end-to-end scenario the aggregator does
    not return the expected aggregate: the subscription finds "cus_1"
    already present (created by the invoice, holding only "products") and
    indexing its "subscriptions" raises [KeyError]. *)
Theorem end_to_end_scenario_raises :
  _process_ scenario = inl KeyError.
Proof. reflexivity. Qed.

(** C3: when a qualifying invoice, subscription or payment names a customer
    whose key is already in the aggregate built so far, aggregation raises
    instead of returning; the existing-customer branch of
    [update_customer_record] itself raises [AttributeError] (the stored
    sub-collection is a dict) or [KeyError] (the entry lacks the
    sub-collection). *)
Theorem existing_customer_raises :
  forall (pre post : list value) (record customer : value) (ck : key) (agg : dict),
    _process_ pre = inr agg ->
    qualifying record = true ->
    subscript record "customer" = inr customer ->
    to_key customer = inr ck ->
    dict_mem agg ck = true ->
    (exists e, _process_ (pre ++ record :: post) = inl e)
    /\ (forall rt data, In rt record_types -> data <> VNone ->
          update_customer_record agg record rt data = inl AttributeError
          \/ update_customer_record agg record rt data = inl KeyError).
Proof.
  intros pre post record customer ck agg Hpre Hq Hc Hk Hm.
  destruct (_process_preserves _ _ Hpre) as [Hs _].
  split.
  - unfold qualifying in Hq.
    destruct (subscript record "object") as [| [| | | o | |]] eqn:Ho; try discriminate.
    destruct (subscript record "status") as [| [| | | s | |]] eqn:Hst; try discriminate.
    assert (Hstep : exists e, process_record agg record = inl e).
    { rewrite (process_record_kind_rule _ _ _ Ho).
      destruct (kind_of o); cbn [status_word] in Hq; try discriminate;
        cbn [kind_rule status_word record_type]; rewrite Hst;
        cbn [bind contains ret]; rewrite Hq; cbn [negb].
      - destruct (contribution Invoice record) as [e | data]; cbn [bind]; [eauto |].
        destruct (update_existing_raises agg record customer ck "products" data
                    Hs ltac:(simpl; auto) Hc Hk Hm) as (e & He & _). eauto.
      - cbn [contribution bind ret].
        destruct (update_existing_raises agg record customer ck "subscriptions" VNone
                    Hs ltac:(simpl; auto) Hc Hk Hm) as (e & He & _). eauto.
      - cbn [contribution bind ret].
        destruct (update_existing_raises agg record customer ck "payments" VNone
                    Hs ltac:(simpl; auto) Hc Hk Hm) as (e & He & _). eauto. }
    destruct Hstep as [e He]. exists e.
    unfold _process_ in *. rewrite process_loop_app, Hpre.
    cbn [bind process_loop]. now rewrite He.
  - intros rt data Hrt Hdata.
    destruct (update_existing_raises agg record customer ck rt data
                Hs Hrt Hc Hk Hm) as (e & He & Hkind).
    rewrite He. destruct (Hkind Hdata) as [-> | ->]; auto.
Qed.

Lemma existing_customer_raises_witness :
  (exists e,
     _process_ ([status_record "subscription" "cus_1" "sub_1" "active"]
                ++ status_record "subscription" "cus_1" "sub_2" "active" :: [])
     = inl e)
  /\ (forall rt data, In rt record_types -> data <> VNone ->
        update_customer_record
          [(KStr "cus_1", VDict [(KStr "subscriptions", VDict [(KStr "sub_1", VStr "active")])])]
          (status_record "subscription" "cus_1" "sub_2" "active") rt data
        = inl AttributeError
        \/ update_customer_record
          [(KStr "cus_1", VDict [(KStr "subscriptions", VDict [(KStr "sub_1", VStr "active")])])]
          (status_record "subscription" "cus_1" "sub_2" "active") rt data
        = inl KeyError).
Proof.
  apply (existing_customer_raises
           [status_record "subscription" "cus_1" "sub_1" "active"] []
           (status_record "subscription" "cus_1" "sub_2" "active")
           (VStr "cus_1") (KStr "cus_1")); reflexivity.
Defined.

(** The two examples the claim names, evaluated. *)
Example two_active_subscriptions_raise :
  _process_ [status_record "subscription" "cus_1" "sub_1" "active";
             status_record "subscription" "cus_1" "sub_2" "active"]
  = inl AttributeError.
Proof. reflexivity. Qed.

Example invoice_then_subscription_raises :
  _process_ [invoice_record "invoice" "cus_1" "paid" [widget_line];
             status_record "subscription" "cus_1" "sub_1" "active"]
  = inl KeyError.
Proof. reflexivity. Qed.

(** C4 (as stated, refuted): the containment test is not case-insensitive.
    The discriminator "Invoice" is an invoice when case is ignored, and the
    invoice rule would store the customer's products, but the aggregator
    skips the record. *)
Lemma dispatch_is_not_case_insensitive :
  kind_of_ignoring_case "Invoice" = Invoice
  /\ kind_rule Invoice [] (invoice_record "Invoice" "cus_1" "paid" [widget_line])
     = inr [(KStr "cus_1", VDict [(KStr "products", VDict widget_products)])]
  /\ _process_ [invoice_record "Invoice" "cus_1" "paid" [widget_line]] = inr [].
Proof. repeat split; reflexivity. Qed.

(** C4 (amended): each record is dispatched on its "object" discriminator by
    exact (case-sensitive) substring containment, trying the account kind
    ("customer") first, then "invoice", then "subscription", then
    "payment_intent"; a record matching none of them, such as
    "charge.refund", leaves the aggregate unchanged and raises nothing, so
    the result is the same as without it. *)
Theorem dispatch_by_exact_containment :
  forall (agg : dict) (record : value) (o : string),
    subscript record "object" = inr (VStr o) ->
    (substr "customer" o = true ->
       process_record agg record = account_rule agg record)
    /\ (substr "customer" o = false -> substr "invoice" o = true ->
          process_record agg record = kind_rule Invoice agg record)
    /\ (substr "customer" o = false -> substr "invoice" o = false ->
        substr "subscription" o = true ->
          process_record agg record = kind_rule Subscription agg record)
    /\ (substr "customer" o = false -> substr "invoice" o = false ->
        substr "subscription" o = false -> substr "payment_intent" o = true ->
          process_record agg record = kind_rule Payment agg record)
    /\ (substr "customer" o = false -> substr "invoice" o = false ->
        substr "subscription" o = false -> substr "payment_intent" o = false ->
          process_record agg record = inr agg
          /\ forall pre post,
               _process_ (pre ++ record :: post) = _process_ (pre ++ post))
    /\ kind_of "charge.refund" = Unrecognized.
Proof.
  intros agg record o Ho.
  assert (Hrule := fun a => process_record_kind_rule a record o Ho).
  unfold kind_of in Hrule.
  split; [| split; [| split; [| split; [| split]]]].
  - intros H1. rewrite Hrule, H1. reflexivity.
  - intros H1 H2. rewrite Hrule, H1, H2. reflexivity.
  - intros H1 H2 H3. rewrite Hrule, H1, H2, H3. reflexivity.
  - intros H1 H2 H3 H4. rewrite Hrule, H1, H2, H3, H4. reflexivity.
  - intros H1 H2 H3 H4. split.
    + rewrite Hrule, H1, H2, H3, H4. reflexivity.
    + intros pre post. apply skip_record.
      intros a. rewrite Hrule, H1, H2, H3, H4. reflexivity.
  - reflexivity.
Qed.

Lemma dispatch_by_exact_containment_witness :
  process_record [] (obj [("object", VStr "charge.refund")]) = inr []
  /\ forall pre post,
       _process_ (pre ++ obj [("object", VStr "charge.refund")] :: post)
       = _process_ (pre ++ post).
Proof.
  apply (dispatch_by_exact_containment [] (obj [("object", VStr "charge.refund")])
           "charge.refund"); reflexivity.
Defined.

(** C5: a record of a filtered kind (invoice / "paid", subscription /
    "active", payment / "succeeded") whose status does not contain the word
    of its kind is skipped: the aggregate is unchanged and the result is the
    same as without the record.  When the status does contain it, the
    record's contribution goes to [update_customer_record] for the
    sub-collection of its kind, which for a customer not yet present creates
    the entry holding it. *)
Theorem status_filter_gates_contribution :
  forall (agg : dict) (record : value) (o s word rt : string),
    subscript record "object" = inr (VStr o) ->
    subscript record "status" = inr (VStr s) ->
    In (kind_of o, word, rt) filtered_kinds ->
    (substr word s = false ->
       process_record agg record = inr agg
       /\ forall pre post,
            _process_ (pre ++ record :: post) = _process_ (pre ++ post))
    /\ (substr word s = true ->
          process_record agg record
          = (data <- contribution (kind_of o) record ;;
             update_customer_record agg record rt data)
          /\ forall customer ck d,
               subscript record "customer" = inr customer ->
               to_key customer = inr ck ->
               dict_mem agg ck = false ->
               contribution (kind_of o) record = inr (VDict d) ->
               process_record agg record
               = inr (agg ++ [(ck, VDict [(KStr rt, VDict d)])])).
Proof.
  intros agg record o s word rt Ho Hs Hin.
  assert (Hrule : forall a,
    process_record a record =
      if substr word s
      then (data <- contribution (kind_of o) record ;;
            update_customer_record a record rt data)
      else ret a).
  { intros a. rewrite (process_record_kind_rule _ _ _ Ho).
    now apply kind_rule_filtered. }
  split; intros Hw.
  - split.
    + rewrite Hrule, Hw. reflexivity.
    + intros pre post. apply skip_record. intros a. rewrite Hrule, Hw. reflexivity.
  - split.
    + rewrite Hrule, Hw. reflexivity.
    + intros customer ck d Hc Hk Hm Hd.
      rewrite Hrule, Hw, Hd. cbn [bind].
      now apply update_new_customer with (customer := customer).
Qed.

Lemma status_filter_gates_contribution_witness :
  (substr "paid" "open" = false ->
     process_record [] (invoice_record "invoice" "cus_1" "open" [widget_line]) = inr []
     /\ forall pre post,
          _process_ (pre ++ invoice_record "invoice" "cus_1" "open" [widget_line] :: post)
          = _process_ (pre ++ post))
  /\ (substr "paid" "open" = true ->
        process_record [] (invoice_record "invoice" "cus_1" "open" [widget_line])
        = (data <- contribution (kind_of "invoice")
                     (invoice_record "invoice" "cus_1" "open" [widget_line]) ;;
           update_customer_record []
             (invoice_record "invoice" "cus_1" "open" [widget_line]) "products" data)
        /\ forall customer ck d,
             subscript (invoice_record "invoice" "cus_1" "open" [widget_line]) "customer"
             = inr customer ->
             to_key customer = inr ck ->
             dict_mem [] ck = false ->
             contribution (kind_of "invoice")
               (invoice_record "invoice" "cus_1" "open" [widget_line]) = inr (VDict d) ->
             process_record [] (invoice_record "invoice" "cus_1" "open" [widget_line])
             = inr ([] ++ [(ck, VDict [(KStr "products", VDict d)])])).
Proof.
  apply (status_filter_gates_contribution []
           (invoice_record "invoice" "cus_1" "open" [widget_line])
           "invoice" "open" "paid" "products").
  - reflexivity.
  - reflexivity.
  - simpl. auto.
Defined.

(** The status-filtering example of the specification: an open and a paid
    invoice for the same customer; only the paid one contributes. *)
Example open_and_paid_invoice :
  _process_ [invoice_record "invoice" "cus_1" "open"
               [obj [("price", obj [("product", VStr "prod_0")]); ("type", VStr "invoiceitem");
                     ("amount", VInt 100); ("description", VStr "Gadget")]];
             invoice_record "invoice" "cus_1" "paid" [widget_line]]
  = inr [(KStr "cus_1", VDict [(KStr "products", VDict widget_products)])].
Proof. reflexivity. Qed.


(** The examples the claim names, evaluated: the line items of an "unpaid"
    invoice are stored, and so are an "inactive" subscription and a
    "not_succeeded" payment. *)
Example unpaid_invoice_is_included :
  _process_ [invoice_record "invoice" "cus_1" "unpaid" [widget_line]]
  = inr [(KStr "cus_1", VDict [(KStr "products", VDict widget_products)])].
Proof. reflexivity. Qed.

Example inactive_subscription_is_included :
  _process_ [status_record "subscription" "cus_1" "sub_1" "inactive"]
  = inr [(KStr "cus_1",
          VDict [(KStr "subscriptions", VDict [(KStr "sub_1", VStr "inactive")])])].
Proof. reflexivity. Qed.

Example not_succeeded_payment_is_included :
  _process_ [status_record "payment_intent" "cus_1" "pi_1" "not_succeeded"]
  = inr [(KStr "cus_1",
          VDict [(KStr "payments", VDict [(KStr "pi_1", VStr "not_succeeded")])])].
Proof. reflexivity. Qed.

End AggregatorSpec.

(** ** The fetcher against its specification *)

Module FetcherSpec.

Import Provider Fetcher.

Section Remote.

Variable attribute : Type.
Variable stripe_getattr : string -> option attribute.
Variable attr_list : attribute -> option (dict -> Py.result value).

#[local] Abbreviation fetch := (_fetch_ attribute stripe_getattr attr_list).
#[local] Abbreviation body := (try_body attribute stripe_getattr attr_list).

(** The last clause, [except Exception], takes whatever instance of
    [Exception] the earlier ones leave. *)
Lemma some_handler_catches (e : exn) :
  isinstance e CException = true ->
  exists h, find_handler handlers e = Some h
            /\ line_level (h e) = ERROR.
Proof.
  intros He. unfold handlers. cbn [find_handler].
  destruct (isinstance e CAttributeError); [eexists; split; reflexivity |].
  destruct (isinstance e CAuthenticationError); [eexists; split; reflexivity |].
  destruct (isinstance e CAPIConnectionError); [eexists; split; reflexivity |].
  rewrite He. eexists; split; reflexivity.
Qed.

(** Nothing catches an exception that is not an instance of [Exception]. *)
Lemma no_handler_outside_Exception (e : exn) :
  isinstance e CException = false -> find_handler handlers e = None.
Proof.
  destruct e; try discriminate. reflexivity.
Qed.

Lemma fetch_on_exception (url : string) (params : StripeRequestParams) (e : exn) :
  body url (request_params_dict params) = inl e ->
  isinstance e CException = true ->
  exists h, find_handler handlers e = Some h
            /\ line_level (h e) = ERROR
            /\ fetch url params = (inr (VList []), [debug_line url; h e]).
Proof.
  intros Hb He. destruct (some_handler_catches e He) as (h & Hh & Hl).
  exists h. repeat split; auto.
  unfold _fetch_. rewrite Hb, Hh. reflexivity.
Qed.

(** C7 (amended): [_fetch_] catches every exception that derives from
    [Exception].  Whatever the resource name and request parameters, when
    such an exception is raised inside the [try] it returns the empty list
    and logs one error line: an unknown resource name logs "wrong stripe
    resource", an authentication failure "wrong stripe api_key", a
    connectivity failure "stripe connection error", and any other instance
    of [Exception] (a generic remote error, or a response without "data")
    the "unhandled exception" line.  An exception outside [Exception] (task
    cancellation, [KeyboardInterrupt], [SystemExit]) is not caught: it
    reaches the caller with only the debug line logged.  Without an
    exception the "data" of the response is returned. *)
Theorem fetch_catches_exactly_Exception :
  forall (url : string) (params : StripeRequestParams),
    (forall e, body url (request_params_dict params) = inl e ->
          isinstance e CException = true ->
          exists line,
            fetch url params = (inr (VList []), [debug_line url; line])
            /\ line_level line = ERROR)
    /\ (forall e, body url (request_params_dict params) = inl e ->
          isinstance e CException = false ->
          fetch url params = (inl e, [debug_line url]))
    /\ (forall data, body url (request_params_dict params) = inr data ->
          fetch url params = (inr data, [debug_line url]))
    /\ (stripe_getattr url = None ->
          fetch url params
          = (inr (VList []),
             [debug_line url;
              log_error "wrong stripe resource, for example 'url':'Customer'"]))
    /\ (forall a list_call e,
          stripe_getattr url = Some a -> attr_list a = Some list_call ->
          list_call (request_params_dict params) = inl e ->
          isinstance e CException = true ->
          fetch url params
          = (inr (VList []),
             [debug_line url;
              match e with
              | AttributeError =>
                  log_error "wrong stripe resource, for example 'url':'Customer'"
              | AuthenticationError => log_error "wrong stripe api_key"
              | APIConnectionError =>
                  {| line_level := ERROR; line_text := "stripe connection error: ";
                     line_exception := Some e |}
              | _ =>
                  {| line_level := ERROR;
                     line_text := "stripe fetch unhandled exception: ";
                     line_exception := Some e |}
              end])).
Proof.
  intros url params.
  split; [| split; [| split; [| split]]].
  - intros e Hb He.
    destruct (fetch_on_exception url params e Hb He) as (h & _ & Hl & ->). eauto.
  - intros e Hb He. unfold _fetch_.
    rewrite Hb, (no_handler_outside_Exception e He). reflexivity.
  - intros data Hb. unfold _fetch_. rewrite Hb. reflexivity.
  - intros Hg. unfold _fetch_, try_body. rewrite Hg. reflexivity.
  - intros a list_call e Hg Hl He Hi.
    unfold _fetch_, try_body. rewrite Hg. cbn [bind ret]. rewrite Hl. cbn [bind ret].
    rewrite He. cbn [bind]. destruct e; try discriminate; reflexivity.
Qed.

End Remote.

(** A client that knows the resource "Customer" only, against which the
    unknown-resource example of the specification is evaluated. *)
Example fetch_unknown_resource :
  _fetch_ unit
    (fun name => if String.eqb name "Customer" then Some tt else None)
    (fun _ => Some (fun _ => inr (Examples.obj [("data", VList [])])))
    "NotARealResource" default_StripeRequestParams
  = (inr (VList []),
     [debug_line "NotARealResource";
      log_error "wrong stripe resource, for example 'url':'Customer'"]).
Proof. reflexivity. Qed.

(** C7 (as stated, refuted): [_fetch_] can raise to its caller.  When the
    awaited list call is cancelled, [asyncio.CancelledError] is not an
    instance of [Exception]; no clause catches it and it leaves [_fetch_]. *)
Lemma cancellation_reaches_the_caller :
  isinstance (OtherBaseException "CancelledError") CException = false
  /\ _fetch_ unit (fun _ => Some tt)
       (fun _ => Some (fun _ => inl (OtherBaseException "CancelledError")))
       "Customer" default_StripeRequestParams
     = (inl (OtherBaseException "CancelledError"), [debug_line "Customer"]).
Proof. split; reflexivity. Qed.

(** The four kinds of failure the claim names, against a client whose list
    call raises them: each is caught and gives the empty list. *)
Example authentication_failure_is_caught :
  _fetch_ unit (fun _ => Some tt) (fun _ => Some (fun _ => inl AuthenticationError))
    "Customer" default_StripeRequestParams
  = (inr (VList []), [debug_line "Customer"; log_error "wrong stripe api_key"]).
Proof. reflexivity. Qed.

Example generic_remote_error_is_caught :
  _fetch_ unit (fun _ => Some tt) (fun _ => Some (fun _ => inl APIError))
    "Customer" default_StripeRequestParams
  = (inr (VList []),
     [debug_line "Customer";
      {| line_level := ERROR; line_text := "stripe fetch unhandled exception: ";
         line_exception := Some APIError |}]).
Proof. reflexivity. Qed.

End FetcherSpec.

(** ** The retry policy against its specification *)

Module RetrySpec.

Import Retry.

Section Execute.

Variable T : Type.
Variable retry_after_return : bool.
Variable operation : nat -> Py.result T.

#[local] Abbreviation run := (execute_from T retry_after_return operation RETRY_CONFIG).

(** An attempt that raises an error of the [StripeError] family ends the
    run with that error. *)
Lemma terminal_error_stops (fuel n : nat) (e : exn) :
  operation n = inl e -> isinstance e CStripeError = true ->
  run (S fuel) n = (Some (inl e), [Attempt n]).
Proof.
  intros Ho Hs. cbn [execute_from]. rewrite Ho.
  cbn [should_retry retry RETRY_CONFIG]. rewrite Hs. reflexivity.
Qed.

(** Before the bound, an attempt that raises any other error is followed by
    a wait and the next attempt. *)
Lemma other_error_retries (fuel n : nat) (e : exn) :
  operation n = inl e -> isinstance e CStripeError = false -> n < 10 ->
  run (S fuel) n
  = (fst (run fuel (S n)),
     Attempt n :: Sleep wait_random_exponential n :: snd (run fuel (S n))).
Proof.
  intros Ho Hs Hn. cbn [execute_from]. rewrite Ho.
  cbn [should_retry retry RETRY_CONFIG stop_after_attempt wait]. rewrite Hs.
  cbn [negb].
  destruct (Nat.leb 10 n) eqn:E; [apply Nat.leb_le in E; lia |].
  now destruct (run fuel (S n)).
Qed.

(** At the bound, it is re-raised as it is. *)
Lemma other_error_exhausts (fuel : nat) (e : exn) :
  operation 10 = inl e -> isinstance e CStripeError = false ->
  run (S fuel) 10 = (Some (inl e), [Attempt 10]).
Proof.
  intros Ho Hs. cbn [execute_from]. rewrite Ho.
  cbn [should_retry retry RETRY_CONFIG stop_after_attempt reraise]. rewrite Hs.
  reflexivity.
Qed.

Lemma exhaustion_from (k : nat) :
  (forall n, exists e, operation n = inl e /\ isinstance e CStripeError = false) ->
  forall fuel n, n + k = 10 -> k < fuel ->
    fst (run fuel n) = Some (operation 10)
    /\ invocations (snd (run fuel n)) = S k.
Proof.
  intros Hall. induction k as [| k IH]; intros fuel n Hn Hf.
  - destruct fuel as [| fuel]; [lia |].
    assert (n = 10) as -> by lia.
    destruct (Hall 10) as (e & He & Hs).
    rewrite (other_error_exhausts fuel e He Hs), He. auto.
  - destruct fuel as [| fuel]; [lia |].
    destruct (Hall n) as (e & He & Hs).
    rewrite (other_error_retries fuel n e He Hs) by lia.
    destruct (IH fuel (S n)) as [Hr Hi]; [lia | lia |].
    cbn [fst snd]. split; [assumption |].
    unfold invocations in *. cbn [filter length]. now rewrite Hi.
Qed.

End Execute.

(** C8 (as stated, refuted): a generic remote API error is not retried.
    [APIError] is a [StripeError], the class the retry predicate excludes,
    so the first attempt's error is re-raised at once, whatever the
    predicate does with attempts that return. *)
Lemma generic_api_error_is_not_retried :
  isinstance APIError CAuthenticationError = false
  /\ execute nat true (fun _ => inl APIError) RETRY_CONFIG 10
     = (Some (inl APIError), [Attempt 1])
  /\ execute nat false (fun _ => inl APIError) RETRY_CONFIG 10
     = (Some (inl APIError), [Attempt 1]).
Proof. repeat split; reflexivity. Qed.

(** C8 (amended): when the first attempt raises an error of the
    [StripeError] family (generic API errors, authentication and
    connectivity failures alike) the policy invokes the operation once and
    re-raises that error immediately; when it raises any other error the
    policy waits under its backoff schedule and invokes the operation
    again. *)
Theorem only_errors_outside_StripeError_are_retried :
  forall (T : Type) (retry_after_return : bool) (operation : nat -> Py.result T)
         (e : exn) (fuel : nat),
    operation 1 = inl e ->
    (isinstance e CStripeError = true ->
       execute T retry_after_return operation RETRY_CONFIG (S fuel)
       = (Some (inl e), [Attempt 1]))
    /\ (isinstance e CStripeError = false ->
          exists outcome rest,
            execute T retry_after_return operation RETRY_CONFIG (S (S fuel))
            = (outcome,
               Attempt 1 :: Sleep wait_random_exponential 1 :: Attempt 2 :: rest)).
Proof.
  intros T b op e fuel Ho. unfold execute. split; intros Hs.
  - now apply terminal_error_stops.
  - rewrite (other_error_retries T b op (S fuel) 1 e Ho Hs) by lia.
    cbn [execute_from].
    destruct (negb (should_retry T b (retry RETRY_CONFIG) (op 2))).
    { cbn [fst snd]. eauto. }
    destruct (Nat.leb (stop_after_attempt RETRY_CONFIG) 2).
    { cbn [fst snd]. eauto. }
    destruct (execute_from T b op RETRY_CONFIG fuel 3) as [r trace].
    cbn [fst snd]. eauto.
Qed.

Lemma only_errors_outside_StripeError_are_retried_witness :
  (isinstance AuthenticationError CStripeError = true ->
     execute nat true (fun _ => inl AuthenticationError) RETRY_CONFIG 1
     = (Some (inl AuthenticationError), [Attempt 1]))
  /\ (isinstance AuthenticationError CStripeError = false ->
        exists outcome rest,
          execute nat true (fun _ => inl AuthenticationError) RETRY_CONFIG 2
          = (outcome,
             Attempt 1 :: Sleep wait_random_exponential 1 :: Attempt 2 :: rest)).
Proof.
  apply (only_errors_outside_StripeError_are_retried nat true
           (fun _ => inl AuthenticationError) AuthenticationError 0).
  reflexivity.
Defined.

(** An error outside the family, evaluated: a second attempt follows. *)
Example key_error_is_retried :
  execute nat true (fun n => if Nat.eqb n 1 then inl KeyError else inr 7)
    {| wait := wait_random_exponential; stop_after_attempt := 10;
       retry := retry_unless_exception_type CStripeError; reraise := true |} 2
  = (None, [Attempt 1; Sleep wait_random_exponential 1;
            Attempt 2; Sleep wait_random_exponential 2]).
Proof. reflexivity. Qed.

(** C9: when every attempt raises a retryable error (one outside the
    [StripeError] family), the policy invokes the operation exactly 10
    times and then re-raises the error of the last attempt unchanged. *)
Theorem retry_stops_after_ten_attempts :
  forall (T : Type) (retry_after_return : bool) (operation : nat -> Py.result T)
         (fuel : nat),
    (forall n, exists e, operation n = inl e /\ isinstance e CStripeError = false) ->
    10 <= fuel ->
    exists e trace,
      operation 10 = inl e
      /\ execute T retry_after_return operation RETRY_CONFIG fuel = (Some (inl e), trace)
      /\ invocations trace = 10.
Proof.
  intros T b op fuel Hall Hf.
  destruct (exhaustion_from T b op 9 Hall fuel 1) as [Hr Hi]; [lia | lia |].
  destruct (Hall 10) as (e & He & _).
  unfold execute.
  destruct (execute_from T b op RETRY_CONFIG fuel 1) as [r trace].
  cbn [fst snd] in *. subst r. rewrite He. eauto.
Qed.

Lemma retry_stops_after_ten_attempts_witness :
  exists e trace,
    (fun n : nat => @inl exn nat (OtherException (if Nat.eqb n 10 then "last" else "earlier"))) 10
    = inl e
    /\ execute nat true
         (fun n => inl (OtherException (if Nat.eqb n 10 then "last" else "earlier")))
         RETRY_CONFIG 10
       = (Some (inl e), trace)
    /\ invocations trace = 10.
Proof.
  apply (retry_stops_after_ten_attempts nat true
           (fun n => inl (OtherException (if Nat.eqb n 10 then "last" else "earlier"))) 10).
  - intros n. eexists. split; reflexivity.
  - lia.
Defined.

End RetrySpec.

(** ** The constructor against its specification *)

Module ProviderSpec.

Import Provider.

(** C10: when the connection parameters of the event's configuration have no
    [api_key], constructing the provider fails: [__init__] raises
    [KeyError] at [connection_params["api_key"]], before any setting of the
    [stripe] module is touched. *)
Theorem missing_api_key_fails_construction :
  forall (event : FetchEvent) (cfg : StripeFetcherConfig) (w : world),
    config event = Some cfg ->
    api_key (connection_params cfg) = None ->
    fst (__init__ event w) = inl KeyError
    /\ stripe (snd (__init__ event w)) = stripe w.
Proof.
  intros event cfg w Hc Hk. unfold __init__. rewrite Hc.
  assert (Hsub : forall p, api_key p = None ->
            subscript (VDict (connection_params_dict p)) "api_key" = inl KeyError).
  { intros [k r l t] Hp. simpl in Hp. subst k.
    destruct r, l, t; reflexivity. }
  destruct (request_params cfg); cbn [connection_params];
    rewrite (Hsub _ Hk); split; reflexivity.
Qed.

Lemma missing_api_key_fails_construction_witness :
  fst (__init__
         {| url := "Customer";
            config := Some {| connection_params :=
                                make_StripeConnectionParams Omitted Omitted Omitted Omitted;
                              request_params := None |} |}
         {| stripe := {| stripe_api_key := VNone; stripe_max_network_retries := VInt 0;
                         stripe_enable_telemetry := VBool true; stripe_log := VNone |};
            log := []; self_event := None |})
  = inl KeyError
  /\ stripe (snd (__init__
         {| url := "Customer";
            config := Some {| connection_params :=
                                make_StripeConnectionParams Omitted Omitted Omitted Omitted;
                              request_params := None |} |}
         {| stripe := {| stripe_api_key := VNone; stripe_max_network_retries := VInt 0;
                         stripe_enable_telemetry := VBool true; stripe_log := VNone |};
            log := []; self_event := None |}))
     = {| stripe_api_key := VNone; stripe_max_network_retries := VInt 0;
          stripe_enable_telemetry := VBool true; stripe_log := VNone |}.
Proof.
  apply (missing_api_key_fails_construction
           {| url := "Customer";
              config := Some {| connection_params :=
                                  make_StripeConnectionParams Omitted Omitted Omitted Omitted;
                                request_params := None |} |}
           {| connection_params :=
                make_StripeConnectionParams Omitted Omitted Omitted Omitted;
              request_params := None |}); reflexivity.
Defined.

(** With a key and the defaults for the rest, construction succeeds and
    configures the client. *)
Example construction_with_api_key :
  __init__
    {| url := "Customer";
       config := Some {| connection_params :=
                           make_StripeConnectionParams (Given (Some "sk_test"))
                             Omitted Omitted Omitted;
                         request_params := None |} |}
    {| stripe := {| stripe_api_key := VNone; stripe_max_network_retries := VInt 0;
                    stripe_enable_telemetry := VBool true; stripe_log := VNone |};
       log := []; self_event := None |}
  = (inr tt,
     {| stripe := {| stripe_api_key := VStr "sk_test";
                     stripe_max_network_retries := VInt 2;
                     stripe_enable_telemetry := VBool true;
                     stripe_log := VStr "info" |};
        log := [];
        self_event :=
          Some ("Customer",
                {| connection_params :=
                     make_StripeConnectionParams (Given (Some "sk_test"))
                       Omitted Omitted Omitted;
                   request_params := Some default_StripeRequestParams |}) |}).
Proof. reflexivity. Qed.

End ProviderSpec.

(** ** Further properties of [parse_invoice_lines] *)

Module InvoiceLines.

Import Kinds PyFacts Aggregator Contributions Examples.

Lemma loop_step (line : value) (rest : list value) (acc : dict) :
  parse_invoice_lines_loop (line :: rest) acc
  = (e <- line_entry line ;;
     parse_invoice_lines_loop rest (dict_set acc (fst e) (snd e))).
Proof.
  cbn [parse_invoice_lines_loop]. unfold line_entry.
  destruct (subscript line "type"); cbn [bind]; [reflexivity |].
  destruct (subscript line "amount"); cbn [bind]; [reflexivity |].
  destruct (subscript line "description"); cbn [bind]; [reflexivity |].
  destruct (subscript line "price") as [| price]; cbn [bind]; [reflexivity |].
  destruct (subscript price "product") as [| product]; cbn [bind]; [reflexivity |].
  destruct (to_key product); reflexivity.
Qed.

Lemma loop_app (pre post : list value) (acc : dict) :
  parse_invoice_lines_loop (pre ++ post) acc
  = (r <- parse_invoice_lines_loop pre acc ;; parse_invoice_lines_loop post r).
Proof.
  revert acc. induction pre as [| line pre IH]; intros acc.
  - reflexivity.
  - change ((line :: pre) ++ post) with (line :: (pre ++ post)).
    rewrite !loop_step.
    destruct (line_entry line) as [e | [k v]]; cbn [bind]; [reflexivity |].
    apply IH.
Qed.

Lemma parse_list_inv (ls : list value) (v : value) :
  parse_invoice_lines (VList ls) = inr v ->
  exists d, v = VDict d /\ parse_invoice_lines_loop ls [] = inr d.
Proof.
  unfold parse_invoice_lines. cbn [iter bind ret].
  destruct (parse_invoice_lines_loop ls []) as [e | d]; cbn [bind ret]; intros H.
  - discriminate.
  - injection H as <-. eauto.
Qed.

Lemma length_dict_set (d : dict) (k : key) (v : value) :
  length (dict_set d k v) <= S (length d).
Proof.
  induction d as [| [k' v'] rest IH]; simpl.
  - lia.
  - destruct (key_eqb k' k); simpl; lia.
Qed.

Lemma values_dict_set (Q : value -> Prop) (d : dict) (k : key) (v : value) :
  Forall (fun kv => Q (snd kv)) d -> Q v ->
  Forall (fun kv => Q (snd kv)) (dict_set d k v).
Proof.
  intros Hd Hv.
  induction Hd as [| [k' v'] rest Hx Hrest IH]; simpl.
  - constructor; [assumption | constructor].
  - destruct (key_eqb k' k); constructor; assumption.
Qed.

Lemma line_entry_shape (line : value) (k : key) (v : value) :
  line_entry line = inr (k, v) -> line_value_shape v.
Proof.
  unfold line_entry. intros H.
  repeat match goal with
         | H : bind ?c _ = inr _ |- _ =>
             let a := fresh "x" in
             apply bind_inr in H as (a & _ & H)
         end.
  injection H as _ <-. red. eauto.
Qed.

Lemma loop_invariant (ls : list value) (acc d : dict) :
  parse_invoice_lines_loop ls acc = inr d ->
  distinct_keys acc = true ->
  Forall (fun kv => line_value_shape (snd kv)) acc ->
  distinct_keys d = true
  /\ Forall (fun kv => line_value_shape (snd kv)) d
  /\ length d <= length acc + length ls.
Proof.
  revert acc. induction ls as [| line rest IH]; intros acc H Hd Hs.
  - injection H as <-. simpl. repeat split; auto. lia.
  - rewrite loop_step in H.
    apply bind_inr in H as ([k v] & He & H). cbn [fst snd] in H.
    destruct (IH _ H) as (Hd' & Hs' & Hl).
    + now apply distinct_keys_set.
    + apply values_dict_set; [assumption |].
      eapply line_entry_shape; eassumption.
    + repeat split; auto.
      pose proof (length_dict_set acc k v). simpl. lia.
Qed.

(** When two lines name the same product the later one replaces the
    earlier: parsing one more line assigns its value under its product key,
    so a lookup of that product gives the last line's value and every other
    product keeps what it had. *)
Theorem later_line_replaces_earlier :
  forall (ls : list value) (line : value) (d : dict) (k : key) (v : value),
    parse_invoice_lines (VList ls) = inr (VDict d) ->
    line_entry line = inr (k, v) ->
    parse_invoice_lines (VList (ls ++ [line])) = inr (VDict (dict_set d k v))
    /\ dict_get (dict_set d k v) k = Some v
    /\ (forall k', key_eqb k k' = false ->
          dict_get (dict_set d k v) k' = dict_get d k').
Proof.
  intros ls line d k v Hp He.
  apply parse_list_inv in Hp as (d' & Hd & Hloop). injection Hd as <-.
  split; [| split].
  - unfold parse_invoice_lines. cbn [iter bind ret].
    rewrite loop_app, Hloop. cbn [bind].
    rewrite loop_step, He. reflexivity.
  - apply dict_get_set_same.
  - intros k' Hne. now apply dict_get_set_other.
Qed.

Lemma later_line_replaces_earlier_witness :
  parse_invoice_lines
    (VList ([widget_line]
            ++ [obj [("price", obj [("product", VStr "prod_1")]); ("type", VStr "subscription");
                     ("amount", VInt 900); ("description", VStr "Plan")]]))
  = inr (VDict [(KStr "prod_1",
                 VDict [(KStr "type", VStr "subscription"); (KStr "amount", VInt 900);
                        (KStr "description", VStr "Plan")])]).
Proof.
  apply (later_line_replaces_earlier [widget_line]
           (obj [("price", obj [("product", VStr "prod_1")]); ("type", VStr "subscription");
                 ("amount", VInt 900); ("description", VStr "Plan")])
           widget_products (KStr "prod_1")); reflexivity.
Defined.

(** The first line that cannot be decomposed (a missing "type", "amount",
    "description", "price" or "product", a line that is not a dict, an
    unhashable product) makes the whole call raise that line's exception:
    nothing parsed before it is returned and nothing after it is looked
    at. *)
Theorem first_bad_line_raises :
  forall (pre post : list value) (bad : value) (d : value) (e : exn),
    parse_invoice_lines (VList pre) = inr d ->
    line_entry bad = inl e ->
    parse_invoice_lines (VList (pre ++ bad :: post)) = inl e.
Proof.
  intros pre post bad d e Hp He.
  apply parse_list_inv in Hp as (d' & _ & Hloop).
  unfold parse_invoice_lines. cbn [iter bind ret].
  rewrite loop_app, Hloop. cbn [bind]. rewrite loop_step, He. reflexivity.
Qed.

Lemma first_bad_line_raises_witness :
  parse_invoice_lines
    (VList ([widget_line]
            ++ obj [("price", obj [("product", VStr "prod_2")]); ("type", VStr "invoiceitem");
                    ("description", VStr "no amount")]
            :: [VNone]))
  = inl KeyError.
Proof.
  apply (first_bad_line_raises [widget_line] [VNone]
           (obj [("price", obj [("product", VStr "prod_2")]); ("type", VStr "invoiceitem");
                 ("description", VStr "no amount")])
           (VDict widget_products)); reflexivity.
Defined.

(** Whatever [parse_invoice_lines] returns is a dict in which every product
    appears once, every value has exactly the fields "type", "amount" and
    "description" in that order, and there are no more products than items
    iterated. *)
Theorem parsed_products_are_well_formed :
  forall (lines v : value),
    parse_invoice_lines lines = inr v ->
    exists d,
      v = VDict d
      /\ (forall k, entries_for k d <= 1)
      /\ Forall (fun kv => line_value_shape (snd kv)) d
      /\ (forall items, iter lines = inr items -> length d <= length items).
Proof.
  intros lines v H. unfold parse_invoice_lines in H.
  apply bind_inr in H as (items & Hi & H).
  apply bind_inr in H as (d & Hloop & H). injection H as <-.
  destruct (loop_invariant items [] d Hloop) as (Hd & Hs & Hl);
    [reflexivity | constructor |].
  exists d. repeat split; auto.
  - intros k. now apply distinct_keys_entries.
  - intros items' Hi'. rewrite Hi in Hi'. injection Hi' as <-. simpl in Hl. lia.
Qed.

Lemma parsed_products_are_well_formed_witness :
  exists d,
    VDict widget_products = VDict d
    /\ (forall k, entries_for k d <= 1)
    /\ Forall (fun kv => line_value_shape (snd kv)) d
    /\ (forall items, iter (VList [widget_line; widget_line]) = inr items ->
          length d <= length items).
Proof.
  apply (parsed_products_are_well_formed (VList [widget_line; widget_line])).
  reflexivity.
Defined.

End InvoiceLines.

(** ** Further properties of [update_customer_record] and [_process_] *)

Module AggregatorMore.

Import Kinds PyFacts Aggregator AggregatorFacts Contributions Examples.

Lemma dict_get_app (a b : dict) (k : key) :
  dict_get (a ++ b) k
  = match dict_get a k with
    | Some v => Some v
    | None => dict_get b k
    end.
Proof.
  induction a as [| [k' v'] rest IH]; simpl; auto.
  destruct (key_eqb k' k); auto.
Qed.

Lemma distinct_keys_snoc (d : dict) (k : key) (v : value) :
  distinct_keys (d ++ [(k, v)]) = true ->
  dict_mem d k = false /\ distinct_keys d = true.
Proof.
  induction d as [| [k0 v0] rest IH]; simpl; intros H.
  - auto.
  - apply andb_true_iff in H as [Hm Hd]. apply negb_true_iff in Hm.
    destruct (IH Hd) as [Hk Hrest].
    unfold dict_mem in *. rewrite dict_get_app in Hm.
    destruct (dict_get rest k0) eqn:G0; [discriminate |].
    simpl in Hm. destruct (key_eqb k k0) eqn:E; [discriminate |].
    split.
    + simpl. rewrite (key_eqb_sym k0 k), E. exact Hk.
    + rewrite Hrest. reflexivity.
Qed.

(** The creation path with the default data. *)
Lemma update_default_new (agg : dict) (record customer id status : value)
  (ck idk : key) (rt : string) :
  subscript record "customer" = inr customer ->
  to_key customer = inr ck ->
  dict_mem agg ck = false ->
  subscript record "id" = inr id ->
  subscript record "status" = inr status ->
  to_key id = inr idk ->
  update_customer_record agg record rt VNone
  = inr (agg ++ [(ck, VDict [(KStr rt, VDict [(idk, status)])])]).
Proof.
  intros Hc Hk Hm Hid Hst Hidk. unfold update_customer_record.
  rewrite Hc. cbn [bind]. rewrite Hid. cbn [bind]. rewrite Hst. cbn [bind].
  rewrite Hidk. cbn [bind ret]. rewrite Hk. cbn [bind].
  unfold dict_mem in Hm.
  destruct (dict_get agg ck) eqn:G; [discriminate |].
  now rewrite dict_set_absent.
Qed.

Lemma process_new_entry (agg : dict) (record : value) (ck : key) (entry : value) :
  new_entry record = Some (ck, entry) ->
  dict_mem agg ck = false ->
  process_record agg record = inr (agg ++ [(ck, entry)]).
Proof.
  unfold new_entry, qualifying. intros H Hm.
  destruct (subscript record "object") as [| [| | | o | |]] eqn:Ho; try discriminate.
  destruct (subscript record "customer") as [| customer] eqn:Hc; try discriminate.
  destruct (record_type (kind_of o)) as [rt |] eqn:Hrt; try discriminate.
  destruct (to_key customer) as [| ck'] eqn:Hk; try discriminate.
  destruct (stored_data (kind_of o) record) as [| [| | | | | d]] eqn:Hd; try discriminate.
  destruct (subscript record "status") as [| [| | | s | |]] eqn:Hst; try discriminate.
  destruct (status_word (kind_of o)) as [w |] eqn:Hw; try discriminate.
  destruct (substr w s) eqn:Hsub; try discriminate.
  injection H as -> <-.
  rewrite (process_record_kind_rule _ _ _ Ho).
  destruct (kind_of o); cbn [record_type status_word] in Hrt, Hw; try discriminate;
    injection Hrt as <-; injection Hw as <-;
    cbn [kind_rule status_word record_type]; rewrite Hst;
    cbn [bind contains ret]; rewrite Hsub; cbn [negb].
  - cbn [stored_data] in Hd. rewrite Hd. cbn [bind].
    now apply update_new_customer with (customer := customer).
  - cbn [contribution bind ret]. cbn [stored_data] in Hd.
    apply bind_inr in Hd as (id & Hid & Hd).
    apply bind_inr in Hd as (st & Hst' & Hd).
    apply bind_inr in Hd as (idk & Hidk & Hd).
    injection Hd as <-.
    now apply update_default_new with (customer := customer) (id := id).
  - cbn [contribution bind ret]. cbn [stored_data] in Hd.
    apply bind_inr in Hd as (id & Hid & Hd).
    apply bind_inr in Hd as (st & Hst' & Hd).
    apply bind_inr in Hd as (idk & Hidk & Hd).
    injection Hd as <-.
    now apply update_default_new with (customer := customer) (id := id).
Qed.

Lemma update_length (agg agg' : dict) (record : value) (rt : string) (data : value) :
  update_customer_record agg record rt data = inr agg' ->
  length agg' <= S (length agg).
Proof.
  unfold update_customer_record. intros H.
  apply bind_inr in H as (customer & _ & H).
  apply bind_inr in H as (data' & _ & H).
  apply bind_inr in H as (ck & _ & H).
  destruct (dict_get agg ck) as [entry |].
  - apply bind_inr in H as (sub & _ & H).
    destruct sub; try discriminate. destruct entry; try discriminate.
    apply bind_inr in H as (items & _ & H). injection H as <-.
    apply InvoiceLines.length_dict_set.
  - injection H as <-. apply InvoiceLines.length_dict_set.
Qed.

Lemma process_record_length (agg agg' : dict) (record : value) :
  process_record agg record = inr agg' -> length agg' <= S (length agg).
Proof.
  intros H. unfold process_record in H.
  apply bind_inr in H as (obj & _ & H).
  apply bind_inr in H as (b1 & _ & H).
  destruct b1.
  { step_binds. subst. apply InvoiceLines.length_dict_set. }
  apply bind_inr in H as (b2 & _ & H).
  destruct b2.
  { apply bind_inr in H as (st & _ & H).
    apply bind_inr in H as (paid & _ & H).
    destruct (negb paid).
    - injection H as <-. lia.
    - apply bind_inr in H as (ls & _ & H).
      apply bind_inr in H as (ld & _ & H).
      apply bind_inr in H as (data & _ & H).
      eapply update_length; eassumption. }
  apply bind_inr in H as (b3 & _ & H).
  destruct b3.
  { apply bind_inr in H as (st & _ & H).
    apply bind_inr in H as (active & _ & H).
    destruct (negb active).
    - injection H as <-. lia.
    - eapply update_length; eassumption. }
  apply bind_inr in H as (b4 & _ & H).
  destruct b4.
  { apply bind_inr in H as (st & _ & H).
    apply bind_inr in H as (ok & _ & H).
    destruct (negb ok).
    - injection H as <-. lia.
    - eapply update_length; eassumption. }
  injection H as <-. lia.
Qed.

Lemma process_loop_length (records : list value) (agg agg' : dict) :
  process_loop records agg = inr agg' ->
  length agg' <= length agg + length records.
Proof.
  revert agg. induction records as [| r rest IH]; intros agg H; simpl in H.
  - injection H as <-. simpl. lia.
  - apply bind_inr in H as (agg1 & H1 & H).
    apply process_record_length in H1. apply IH in H. simpl. lia.
Qed.

(** Every entry of a returned aggregate has exactly one field: either "id"
    (from an account record) or a single sub-collection among "products",
    "subscriptions" and "payments", holding a dict.  No entry ever holds two
    sub-collections, or "id" together with a sub-collection. *)
Theorem entries_hold_exactly_one_field :
  forall (records : list value) (agg : dict) (k : key) (entry : value),
    _process_ records = inr agg ->
    dict_get agg k = Some entry ->
    (exists id, entry = VDict [(KStr "id", id)])
    \/ (exists rt d, In rt ["products"; "subscriptions"; "payments"]
                     /\ entry = VDict [(KStr rt, VDict d)]).
Proof.
  intros records agg k entry H G.
  destruct (_process_preserves _ _ H) as [Hs _].
  exact (shaped_get _ _ _ Hs G).
Qed.

Lemma entries_hold_exactly_one_field_witness :
  (exists id, VDict [(KStr "products", VDict widget_products)] = VDict [(KStr "id", id)])
  \/ (exists rt d, In rt ["products"; "subscriptions"; "payments"]
                   /\ VDict [(KStr "products", VDict widget_products)]
                      = VDict [(KStr rt, VDict d)]).
Proof.
  apply (entries_hold_exactly_one_field
           [account_record "a@x.com" "cus_1";
            invoice_record "invoice" "cus_1" "paid" [widget_line]]
           [(KStr "a@x.com", VDict [(KStr "id", VStr "cus_1")]);
            (KStr "cus_1", VDict [(KStr "products", VDict widget_products)])]
           (KStr "cus_1")); reflexivity.
Defined.

(** Once a record has made the aggregation raise, nothing after it
    matters: the same exception comes out whatever records follow, and no
    partial aggregate is returned. *)
Theorem raising_prefix_aborts :
  forall (pre post : list value) (e : exn),
    _process_ pre = inl e -> _process_ (pre ++ post) = inl e.
Proof.
  intros pre post e H. unfold _process_ in *.
  rewrite process_loop_app, H. reflexivity.
Qed.

Lemma raising_prefix_aborts_witness :
  _process_ ([status_record "subscription" "cus_1" "sub_1" "active";
              status_record "subscription" "cus_1" "sub_2" "active"]
             ++ [account_record "b@x.com" "cus_2"])
  = inl AttributeError.
Proof.
  apply (raising_prefix_aborts
           [status_record "subscription" "cus_1" "sub_1" "active";
            status_record "subscription" "cus_1" "sub_2" "active"]
           [account_record "b@x.com" "cus_2"]).
  reflexivity.
Defined.

(** A record without an "object" field, or one that is not a dict at all,
    is not skipped like a record of an unknown kind: it aborts the
    aggregation with [KeyError] (field missing) or [TypeError] (not a dict),
    wherever it stands in the input. *)
Theorem record_without_object_aborts :
  forall (pre post : list value) (agg : dict) (record : value) (e : exn),
    _process_ pre = inr agg ->
    subscript record "object" = inl e ->
    _process_ (pre ++ record :: post) = inl e
    /\ (e = KeyError \/ e = TypeError).
Proof.
  intros pre post agg record e Hpre Ho. split.
  - unfold _process_ in *. rewrite process_loop_app, Hpre.
    cbn [bind process_loop]. unfold process_record. rewrite Ho. reflexivity.
  - unfold subscript in Ho.
    destruct record; try (injection Ho as <-; auto).
    destruct (dict_get d (KStr "object")); [discriminate |].
    injection Ho as <-. auto.
Qed.

Lemma record_without_object_aborts_witness :
  _process_ ([account_record "a@x.com" "cus_1"]
             ++ obj [("id", VStr "evt_1")] :: [account_record "b@x.com" "cus_2"])
  = inl KeyError
  /\ (KeyError = KeyError \/ KeyError = TypeError).
Proof.
  apply (record_without_object_aborts
           [account_record "a@x.com" "cus_1"] [account_record "b@x.com" "cus_2"]
           [(KStr "a@x.com", VDict [(KStr "id", VStr "cus_1")])]
           (obj [("id", VStr "evt_1")])); reflexivity.
Defined.

(** On an aggregate built by [_process_], a call of
    [update_customer_record] that returns has always created an entry: the
    customer was absent, the new entry (one sub-collection) is appended at
    the end, and every entry already present is left as it was. *)
Theorem successful_update_is_a_creation :
  forall (records : list value) (agg agg' : dict) (record : value)
         (rt : string) (data : value),
    _process_ records = inr agg ->
    In rt record_types ->
    update_customer_record agg record rt data = inr agg' ->
    exists ck stored,
      agg' = agg ++ [(ck, VDict [(KStr rt, stored)])]
      /\ dict_mem agg ck = false
      /\ dict_get agg' ck = Some (VDict [(KStr rt, stored)])
      /\ (forall k x, dict_get agg k = Some x -> dict_get agg' k = Some x).
Proof.
  intros records agg agg' record rt data Hp Hrt H.
  destruct (_process_preserves _ _ Hp) as [Hs _].
  pose proof H as H0.
  unfold update_customer_record in H.
  apply bind_inr in H as (customer & Hc & H).
  apply bind_inr in H as (data' & _ & H).
  apply bind_inr in H as (ck & Hk & H).
  destruct (dict_get agg ck) as [entry |] eqn:G.
  - exfalso.
    assert (Hm : dict_mem agg ck = true) by (unfold dict_mem; now rewrite G).
    destruct (update_existing_raises agg record customer ck rt data
                Hs Hrt Hc Hk Hm) as (e & He & _).
    congruence.
  - injection H as <-. exists ck, data'.
    rewrite dict_set_absent by assumption.
    repeat split.
    + unfold dict_mem. now rewrite G.
    + rewrite dict_get_app, G. simpl. now rewrite key_eqb_refl.
    + intros k x Gk. now rewrite dict_get_app, Gk.
Qed.

Lemma successful_update_is_a_creation_witness :
  exists ck stored,
    [(KStr "cus_1", VDict [(KStr "products", VDict widget_products)]);
     (KStr "cus_2", VDict [(KStr "payments", VDict [(KStr "pi_1", VStr "succeeded")])])]
    = [(KStr "cus_1", VDict [(KStr "products", VDict widget_products)])]
      ++ [(ck, VDict [(KStr "payments", stored)])]
    /\ dict_mem [(KStr "cus_1", VDict [(KStr "products", VDict widget_products)])] ck = false
    /\ dict_get
         [(KStr "cus_1", VDict [(KStr "products", VDict widget_products)]);
          (KStr "cus_2", VDict [(KStr "payments", VDict [(KStr "pi_1", VStr "succeeded")])])]
         ck
       = Some (VDict [(KStr "payments", stored)])
    /\ (forall k x,
          dict_get [(KStr "cus_1", VDict [(KStr "products", VDict widget_products)])] k
          = Some x ->
          dict_get
            [(KStr "cus_1", VDict [(KStr "products", VDict widget_products)]);
             (KStr "cus_2", VDict [(KStr "payments", VDict [(KStr "pi_1", VStr "succeeded")])])]
            k
          = Some x).
Proof.
  apply (successful_update_is_a_creation
           [invoice_record "invoice" "cus_1" "paid" [widget_line]]
           [(KStr "cus_1", VDict [(KStr "products", VDict widget_products)])]
           _
           (status_record "payment_intent" "cus_2" "pi_1" "succeeded")
           "payments" VNone).
  - reflexivity.
  - simpl. auto.
  - reflexivity.
Defined.

(** When the qualifying invoices, subscriptions and payments of the input
    name pairwise different customers, aggregation returns exactly one entry
    per record, in input order: the customer key with the one sub-collection
    of the record's kind. *)
Theorem distinct_customers_aggregate_in_order :
  forall (records : list value) (entries : dict),
    Forall2 (fun record entry => new_entry record = Some entry) records entries ->
    distinct_keys entries = true ->
    _process_ records = inr entries.
Proof.
  intros records. induction records as [| r records IH] using rev_ind;
    intros entries HF Hd.
  - inversion HF. reflexivity.
  - apply Forall2_app_inv_l in HF as (es & last & Hes & Hlast & ->).
    inversion Hlast as [| r' [ck entry] ? ? Hr Hnil]; subst.
    inversion Hnil; subst.
    apply distinct_keys_snoc in Hd as [Hm Hd].
    unfold _process_ in *. rewrite process_loop_app, (IH es Hes Hd).
    cbn [bind process_loop]. now rewrite (process_new_entry es r ck entry Hr Hm).
Qed.

Lemma distinct_customers_aggregate_in_order_witness :
  _process_ [invoice_record "invoice" "cus_1" "paid" [widget_line];
             status_record "subscription" "cus_2" "sub_1" "active";
             status_record "payment_intent" "cus_3" "pi_1" "succeeded"]
  = inr [(KStr "cus_1", VDict [(KStr "products", VDict widget_products)]);
         (KStr "cus_2", VDict [(KStr "subscriptions", VDict [(KStr "sub_1", VStr "active")])]);
         (KStr "cus_3", VDict [(KStr "payments", VDict [(KStr "pi_1", VStr "succeeded")])])].
Proof.
  apply distinct_customers_aggregate_in_order.
  - repeat constructor.
  - reflexivity.
Defined.

(** A returned aggregate never has more entries than there were records:
    each record adds at most one. *)
Theorem no_more_entries_than_records :
  forall (records : list value) (agg : dict),
    _process_ records = inr agg -> length agg <= length records.
Proof.
  intros records agg H. apply process_loop_length in H. simpl in H. lia.
Qed.

Lemma no_more_entries_than_records_witness :
  length [(KStr "a@x.com", VDict [(KStr "id", VStr "cus_2")])] <= 2.
Proof.
  apply (no_more_entries_than_records
           [account_record "a@x.com" "cus_1"; account_record "a@x.com" "cus_2"]).
  reflexivity.
Defined.

End AggregatorMore.

(** ** Further properties of [_fetch_] *)

Module FetcherMore.

Import Provider Fetcher.

Section Remote.

Variable attribute : Type.
Variable stripe_getattr : string -> option attribute.
Variable attr_list : attribute -> option (dict -> Py.result value).

#[local] Abbreviation fetch := (_fetch_ attribute stripe_getattr attr_list).

(** When the resource exists and its list call answers with a response
    that has a "data" field, [_fetch_] returns that field as it is, whatever
    it holds, and logs nothing but the debug line. *)
Theorem fetch_returns_response_data :
  forall (url : string) (params : StripeRequestParams) (a : attribute)
         (list_call : dict -> Py.result value) (response data : value),
    stripe_getattr url = Some a ->
    attr_list a = Some list_call ->
    list_call (request_params_dict params) = inr response ->
    subscript response "data" = inr data ->
    fetch url params = (inr data, [debug_line url]).
Proof.
  intros url params a list_call response data Hg Hl Hr Hd.
  unfold _fetch_, try_body. rewrite Hg. cbn [bind ret]. rewrite Hl. cbn [bind ret].
  rewrite Hr. cbn [bind]. rewrite Hd. reflexivity.
Qed.

(** A resource name that resolves to something without a usable list
    result gives the empty list: an attribute of the client that has no
    [list] is reported as a wrong resource, and a response without a "data"
    field (or one that is not a dict) is swallowed as an unhandled
    exception, [KeyError] or [TypeError], with the empty list returned. *)
Theorem fetch_without_usable_result_is_empty :
  forall (url : string) (params : StripeRequestParams) (a : attribute),
    stripe_getattr url = Some a ->
    (attr_list a = None ->
       fetch url params
       = (inr (VList []),
          [debug_line url;
           log_error "wrong stripe resource, for example 'url':'Customer'"]))
    /\ (forall list_call response e,
          attr_list a = Some list_call ->
          list_call (request_params_dict params) = inr response ->
          subscript response "data" = inl e ->
          (e = KeyError \/ e = TypeError)
          /\ fetch url params
             = (inr (VList []),
                [debug_line url;
                 {| line_level := ERROR;
                    line_text := "stripe fetch unhandled exception: ";
                    line_exception := Some e |}])).
Proof.
  intros url params a Hg. split.
  - intros Hl. unfold _fetch_, try_body. rewrite Hg. cbn [bind ret]. rewrite Hl.
    reflexivity.
  - intros list_call response e Hl Hr Hd.
    assert (He : e = KeyError \/ e = TypeError).
    { unfold subscript in Hd. destruct response; try (injection Hd as <-; auto).
      destruct (dict_get d (KStr "data")); [discriminate |].
      injection Hd as <-. auto. }
    split; [assumption |].
    unfold _fetch_, try_body. rewrite Hg. cbn [bind ret]. rewrite Hl. cbn [bind ret].
    rewrite Hr. cbn [bind]. rewrite Hd.
    destruct He as [-> | ->]; reflexivity.
Qed.

End Remote.

Lemma fetch_returns_response_data_witness :
  _fetch_ unit (fun _ => Some tt)
    (fun _ => Some (fun _ => inr (Examples.obj [("data", VList [VStr "r1"])])))
    "Customer" default_StripeRequestParams
  = (inr (VList [VStr "r1"]), [debug_line "Customer"]).
Proof.
  apply (fetch_returns_response_data unit (fun _ => Some tt)
           (fun _ => Some (fun _ => inr (Examples.obj [("data", VList [VStr "r1"])])))
           "Customer" default_StripeRequestParams tt
           (fun _ => inr (Examples.obj [("data", VList [VStr "r1"])]))
           (Examples.obj [("data", VList [VStr "r1"])])); reflexivity.
Defined.

Lemma fetch_without_usable_result_is_empty_witness :
  (KeyError = KeyError \/ KeyError = TypeError)
  /\ _fetch_ unit (fun _ => Some tt)
       (fun _ => Some (fun _ => inr (Examples.obj [("has_more", VBool false)])))
       "Customer" default_StripeRequestParams
     = (inr (VList []),
        [debug_line "Customer";
         {| line_level := ERROR;
            line_text := "stripe fetch unhandled exception: ";
            line_exception := Some KeyError |}]).
Proof.
  apply (fetch_without_usable_result_is_empty unit (fun _ => Some tt)
           (fun _ => Some (fun _ => inr (Examples.obj [("has_more", VBool false)])))
           "Customer" default_StripeRequestParams tt eq_refl)
    with (list_call := fun _ => inr (Examples.obj [("has_more", VBool false)]))
         (response := Examples.obj [("has_more", VBool false)]);
    reflexivity.
Defined.

End FetcherMore.

(** ** Further properties of the constructor *)

Module ProviderMore.

Import Provider.

(** Splits on every test the constructor makes. *)
Ltac split_tests :=
  repeat match goal with
         | |- context [if ?b then _ else _] => destruct b eqn:?
         end.

(** An event without a configuration does not make the constructor raise:
    it logs one error line and returns, leaving the client settings
    untouched and the provider without its event. *)
Theorem construction_without_config_only_logs :
  forall (event : FetchEvent) (w : world),
    config event = None ->
    __init__ event w
    = (inr tt,
       {| stripe := stripe w;
          log := log w ++ [log_error "incomplete fetcher config!"];
          self_event := self_event w |}).
Proof.
  intros event w H. unfold __init__. rewrite H. reflexivity.
Qed.

Lemma construction_without_config_only_logs_witness :
  __init__ {| url := "Customer"; config := None |}
    {| stripe := {| stripe_api_key := VNone; stripe_max_network_retries := VInt 0;
                    stripe_enable_telemetry := VBool true; stripe_log := VNone |};
       log := []; self_event := None |}
  = (inr tt,
     {| stripe := {| stripe_api_key := VNone; stripe_max_network_retries := VInt 0;
                     stripe_enable_telemetry := VBool true; stripe_log := VNone |};
        log := [] ++ [log_error "incomplete fetcher config!"];
        self_event := None |}).
Proof.
  apply (construction_without_config_only_logs
           {| url := "Customer"; config := None |}).
  reflexivity.
Defined.

(** With all four connection parameters present the constructor succeeds
    and logs nothing.  It always assigns the key; it assigns the retry count
    only when it is not 0, the log level only when it is not the empty
    string, and telemetry only when it is true: a falsy value leaves the
    client setting as it was. *)
Theorem construction_applies_truthy_settings :
  forall (u k l : string) (r : Z) (t : bool) (rp : option StripeRequestParams)
         (w : world),
    fst (__init__
           {| url := u;
              config := Some {| connection_params :=
                                  {| api_key := Some k; max_network_retries := Some r;
                                     log_level := Some l; enable_telemetry := Some t |};
                                request_params := rp |} |} w)
    = inr tt
    /\ let w' := snd (__init__
           {| url := u;
              config := Some {| connection_params :=
                                  {| api_key := Some k; max_network_retries := Some r;
                                     log_level := Some l; enable_telemetry := Some t |};
                                request_params := rp |} |} w) in
       log w' = log w
       /\ stripe_api_key (stripe w') = VStr k
       /\ stripe_max_network_retries (stripe w')
          = (if Z.eqb r 0 then stripe_max_network_retries (stripe w) else VInt r)
       /\ stripe_log (stripe w')
          = (if String.eqb l "" then stripe_log (stripe w) else VStr l)
       /\ stripe_enable_telemetry (stripe w')
          = (if t then VBool true else stripe_enable_telemetry (stripe w)).
Proof.
  intros u k l r t rp w. unfold __init__. destruct rp; simpl;
    destruct (Z.eqb r 0), (String.eqb l ""), t; simpl; repeat split; reflexivity.
Qed.

(** A connection parameter other than the key that is given as null makes
    the constructor raise [KeyError], and it does so after the key has
    already been assigned to the client. *)
Theorem null_setting_fails_after_key_assignment :
  forall (event : FetchEvent) (cfg : StripeFetcherConfig) (k : string) (w : world),
    config event = Some cfg ->
    api_key (connection_params cfg) = Some k ->
    max_network_retries (connection_params cfg) = None
    \/ log_level (connection_params cfg) = None
    \/ enable_telemetry (connection_params cfg) = None ->
    fst (__init__ event w) = inl KeyError
    /\ stripe_api_key (stripe (snd (__init__ event w))) = VStr k.
Proof.
  intros [u c] [[k0 r l t] rp] k w Hc Hk Hnull.
  simpl in Hc, Hk, Hnull. subst c k0. unfold __init__.
  destruct rp, r as [r |], l as [l |], t as [t |];
    try (destruct Hnull as [H | [H | H]]; discriminate);
    simpl; split_tests; simpl; split; reflexivity.
Qed.

Lemma null_setting_fails_after_key_assignment_witness :
  fst (__init__
         {| url := "Customer";
            config := Some {| connection_params :=
                                make_StripeConnectionParams (Given (Some "sk_test"))
                                  (Given None) Omitted Omitted;
                              request_params := None |} |}
         {| stripe := {| stripe_api_key := VNone; stripe_max_network_retries := VInt 0;
                         stripe_enable_telemetry := VBool true; stripe_log := VNone |};
            log := []; self_event := None |})
  = inl KeyError
  /\ stripe_api_key (stripe (snd (__init__
         {| url := "Customer";
            config := Some {| connection_params :=
                                make_StripeConnectionParams (Given (Some "sk_test"))
                                  (Given None) Omitted Omitted;
                              request_params := None |} |}
         {| stripe := {| stripe_api_key := VNone; stripe_max_network_retries := VInt 0;
                         stripe_enable_telemetry := VBool true; stripe_log := VNone |};
            log := []; self_event := None |})))
     = VStr "sk_test".
Proof.
  apply (null_setting_fails_after_key_assignment
           {| url := "Customer";
              config := Some {| connection_params :=
                                  make_StripeConnectionParams (Given (Some "sk_test"))
                                    (Given None) Omitted Omitted;
                                request_params := None |} |}
           {| connection_params :=
                make_StripeConnectionParams (Given (Some "sk_test"))
                  (Given None) Omitted Omitted;
              request_params := None |}
           "sk_test").
  - reflexivity.
  - reflexivity.
  - left. reflexivity.
Defined.

(** The constructor never switches telemetry off: whatever the event,
    afterwards the client's telemetry setting is what it was before or
    [True]. *)
Theorem construction_never_disables_telemetry :
  forall (event : FetchEvent) (w : world),
    stripe_enable_telemetry (stripe (snd (__init__ event w)))
    = stripe_enable_telemetry (stripe w)
    \/ stripe_enable_telemetry (stripe (snd (__init__ event w))) = VBool true.
Proof.
  intros [u [[[k r l t] rp] |]] w; unfold __init__; [| left; reflexivity].
  destruct rp, k as [k |], r as [r |], l as [l |], t as [[|] |]; simpl;
    split_tests; simpl; auto.
Qed.

(** Whenever the event has a configuration the constructor stores the event
    with request parameters in place, the defaults if none were given, also
    when it then raises; so [_fetch_] never finds them missing. *)
Theorem construction_stores_request_params :
  forall (event : FetchEvent) (cfg : StripeFetcherConfig) (w : world),
    config event = Some cfg ->
    self_event (snd (__init__ event w))
    = Some (url event,
            {| connection_params := connection_params cfg;
               request_params :=
                 Some match request_params cfg with
                      | Some rp => rp
                      | None => default_StripeRequestParams
                      end |}).
Proof.
  intros [u c] [[k r l t] rp] w Hc. simpl in Hc. subst c. unfold __init__.
  destruct rp, k as [k |], r as [r |], l as [l |], t as [[|] |]; simpl;
    split_tests; reflexivity.
Qed.

Lemma construction_stores_request_params_witness :
  self_event (snd (__init__
    {| url := "Customer";
       config := Some {| connection_params :=
                           make_StripeConnectionParams Omitted Omitted Omitted Omitted;
                         request_params := None |} |}
    {| stripe := {| stripe_api_key := VNone; stripe_max_network_retries := VInt 0;
                    stripe_enable_telemetry := VBool true; stripe_log := VNone |};
       log := []; self_event := None |}))
  = Some ("Customer",
          {| connection_params :=
               make_StripeConnectionParams Omitted Omitted Omitted Omitted;
             request_params := Some default_StripeRequestParams |}).
Proof.
  apply (construction_stores_request_params
           {| url := "Customer";
              config := Some {| connection_params :=
                                  make_StripeConnectionParams Omitted Omitted Omitted Omitted;
                                request_params := None |} |}
           {| connection_params :=
                make_StripeConnectionParams Omitted Omitted Omitted Omitted;
              request_params := None |}).
  reflexivity.
Defined.

End ProviderMore.

(** ** Further properties of the retry policy under [RETRY_CONFIG] *)

Module RetryMore.

Import Retry RetryTrace RetrySpec.

Section Execute.

Variable T : Type.
Variable retry_after_return : bool.
Variable operation : nat -> Py.result T.

#[local] Abbreviation run := (execute_from T retry_after_return operation RETRY_CONFIG).

Lemma bounded_from (k : nat) :
  forall fuel n, n + k = 10 -> k < fuel ->
    (exists outcome, fst (run fuel n) = Some outcome)
    /\ 1 <= invocations (snd (run fuel n)) <= S k
    /\ S (waits (snd (run fuel n))) = invocations (snd (run fuel n)).
Proof.
  induction k as [| k IH]; intros fuel n Hn Hf;
    (destruct fuel as [| fuel]; [lia |]); cbn [execute_from];
    destruct (negb (should_retry T retry_after_return (retry RETRY_CONFIG) (operation n)));
    try (cbn; split; [eauto | split; [lia | reflexivity]]);
    cbn [stop_after_attempt RETRY_CONFIG];
    destruct (Nat.leb 10 n) eqn:E;
    try (cbn; split; [eauto | split; [lia | reflexivity]]).
  - apply Nat.leb_gt in E. lia.
  - destruct (IH fuel (S n)) as ((outcome & Ho) & Hi & Hw); [lia | lia |].
    destruct (run fuel (S n)) as [r trace]. cbn [fst snd] in *.
    unfold invocations, waits in *. cbn [filter length].
    split; [eauto | split; lia].
Qed.

Lemma terminal_after_retries (k : nat) (e : exn) :
  k <= 10 ->
  (forall n, n < k ->
     exists e', operation n = inl e' /\ isinstance e' CStripeError = false) ->
  operation k = inl e -> isinstance e CStripeError = true ->
  forall j fuel n, n + j = k -> j < fuel ->
    fst (run fuel n) = Some (inl e)
    /\ invocations (snd (run fuel n)) = S j.
Proof.
  intros Hk Hbefore He Hs. induction j as [| j IH]; intros fuel n Hn Hf;
    (destruct fuel as [| fuel]; [lia |]).
  - assert (n = k) as -> by lia.
    rewrite (terminal_error_stops T retry_after_return operation fuel k e He Hs).
    split; reflexivity.
  - destruct (Hbefore n) as (e' & He' & Hs'); [lia |].
    rewrite (other_error_retries T retry_after_return operation fuel n e' He' Hs')
      by lia.
    destruct (IH fuel (S n)) as [Hr Hi]; [lia | lia |].
    cbn [fst snd]. split; [assumption |].
    unfold invocations in *. cbn [filter length]. now rewrite Hi.
Qed.

End Execute.

(** Under [RETRY_CONFIG], with the retry loop as the specification
    describes it, no operation is invoked more than 10 times: every run
    ends with an outcome after between 1 and 10 invocations, and it waits
    once between two invocations and never after the last one. *)
Theorem never_more_than_ten_attempts :
  forall (T : Type) (retry_after_return : bool) (operation : nat -> Py.result T)
         (fuel : nat),
    10 <= fuel ->
    exists outcome trace,
      execute T retry_after_return operation RETRY_CONFIG fuel = (Some outcome, trace)
      /\ 1 <= invocations trace <= 10
      /\ S (waits trace) = invocations trace.
Proof.
  intros T b op fuel Hf.
  destruct (bounded_from T b op 9 fuel 1) as ((outcome & Ho) & Hi & Hw); [lia | lia |].
  unfold execute.
  destruct (execute_from T b op RETRY_CONFIG fuel 1) as [r trace].
  cbn [fst snd] in *. subst r. eauto.
Qed.

Lemma never_more_than_ten_attempts_witness :
  exists outcome trace,
    execute nat true (fun n => if Nat.leb n 3 then inl KeyError else inl APIError)
      RETRY_CONFIG 10
    = (Some outcome, trace)
    /\ 1 <= invocations trace <= 10
    /\ S (waits trace) = invocations trace.
Proof.
  apply (never_more_than_ten_attempts nat true
           (fun n => if Nat.leb n 3 then inl KeyError else inl APIError) 10).
  lia.
Defined.

(** Under [RETRY_CONFIG], with the retry loop as the specification
    describes it: when the attempts before the k-th (k at most 10) raise
    errors outside the [StripeError] family and the k-th raises one inside
    it, the run ends at the k-th invocation with that error. *)
Theorem stripe_error_ends_the_run :
  forall (T : Type) (retry_after_return : bool) (operation : nat -> Py.result T)
         (k : nat) (e : exn) (fuel : nat),
    1 <= k <= 10 ->
    (forall n, n < k ->
       exists e', operation n = inl e' /\ isinstance e' CStripeError = false) ->
    operation k = inl e ->
    isinstance e CStripeError = true ->
    k <= fuel ->
    exists trace,
      execute T retry_after_return operation RETRY_CONFIG fuel = (Some (inl e), trace)
      /\ invocations trace = k.
Proof.
  intros T b op k e fuel Hk Hbefore He Hs Hf.
  destruct (terminal_after_retries T b op k e ltac:(lia) Hbefore He Hs
              (k - 1) fuel 1) as [Hr Hi]; [lia | lia |].
  unfold execute.
  destruct (execute_from T b op RETRY_CONFIG fuel 1) as [r trace].
  cbn [fst snd] in *. subst r. exists trace. split; [reflexivity | lia].
Qed.

Lemma stripe_error_ends_the_run_witness :
  exists trace,
    execute nat true (fun n => if Nat.leb n 3 then inl KeyError else inl APIConnectionError)
      RETRY_CONFIG 4
    = (Some (inl APIConnectionError), trace)
    /\ invocations trace = 4.
Proof.
  apply (stripe_error_ends_the_run nat true
           (fun n => if Nat.leb n 3 then inl KeyError else inl APIConnectionError)
           4 APIConnectionError 4).
  - lia.
  - intros n Hn. exists KeyError.
    destruct n as [| [| [| [| n]]]]; [| | | | lia]; split; reflexivity.
  - reflexivity.
  - reflexivity.
  - lia.
Defined.

End RetryMore.

(** ** Which exception a repeated customer raises *)

Module Collisions.

Import Kinds PyFacts Aggregator AggregatorFacts Contributions Examples.

Lemma subscript_stored (fields : dict) (rt : string) :
  entry_shape (VDict fields) -> In rt record_types ->
  (dict_mem fields (KStr rt) = true /\ exists d, subscript (VDict fields) rt = inr (VDict d))
  \/ (dict_mem fields (KStr rt) = false /\ subscript (VDict fields) rt = inl KeyError).
Proof.
  intros [[id H] | (rt' & d & Hin & H)] Hrt; injection H as ->.
  - right. simpl in Hrt. unfold dict_mem.
    destruct Hrt as [<- | [<- | [<- | []]]]; split; reflexivity.
  - unfold dict_mem, subscript. simpl.
    destruct (String.eqb rt' rt); [left | right]; eauto.
Qed.

Lemma update_existing_kind (agg : dict) (record customer : value) (ck : key)
  (rt : string) (data : value) (fields d : dict) :
  shaped agg -> In rt record_types ->
  subscript record "customer" = inr customer ->
  to_key customer = inr ck ->
  dict_get agg ck = Some (VDict fields) ->
  (data = VDict d
   \/ (data = VNone
       /\ exists id status idk,
            subscript record "id" = inr id
            /\ subscript record "status" = inr status
            /\ to_key id = inr idk)) ->
  update_customer_record agg record rt data
  = inl (if dict_mem fields (KStr rt) then AttributeError else KeyError).
Proof.
  intros Hs Hrt Hc Hk G Hdata.
  assert (Hshape := shaped_get _ _ _ Hs G).
  unfold update_customer_record. rewrite Hc. cbn [bind].
  destruct Hdata as [-> | (-> & id & st & idk & Hid & Hst & Hidk)].
  - cbn [bind ret]. rewrite Hk. cbn [bind]. rewrite G.
    destruct (subscript_stored fields rt Hshape Hrt) as [[-> [d' ->]] | [-> ->]];
      reflexivity.
  - rewrite Hid. cbn [bind]. rewrite Hst. cbn [bind]. rewrite Hidk. cbn [bind ret].
    rewrite Hk. cbn [bind]. rewrite G.
    destruct (subscript_stored fields rt Hshape Hrt) as [[-> [d' ->]] | [-> ->]];
      reflexivity.
Qed.

(** When a well-formed qualifying record names a customer already in the
    aggregate, the exception is decided by the entry found there:
    [AttributeError] when the entry already has the sub-collection of the
    record's kind (a second record of the same kind), [KeyError] when it
    does not (a record of another kind, or an entry made by an account
    record). *)
Theorem repeated_customer_exception :
  forall (records : list value) (agg : dict) (record : value) (ck : key)
         (rt : string) (d fields : dict),
    _process_ records = inr agg ->
    new_entry record = Some (ck, VDict [(KStr rt, VDict d)]) ->
    dict_get agg ck = Some (VDict fields) ->
    _process_ (records ++ [record])
    = inl (if dict_mem fields (KStr rt) then AttributeError else KeyError).
Proof.
  intros records agg record ck rt d fields Hp H G.
  destruct (_process_preserves _ _ Hp) as [Hs _].
  unfold _process_ in *. rewrite process_loop_app, Hp. cbn [bind process_loop].
  enough (Hstep : process_record agg record
                  = inl (if dict_mem fields (KStr rt) then AttributeError else KeyError))
    by now rewrite Hstep.
  unfold new_entry, qualifying in H.
  destruct (subscript record "object") as [| [| | | o | |]] eqn:Ho; try discriminate.
  destruct (subscript record "customer") as [| customer] eqn:Hc; try discriminate.
  destruct (record_type (kind_of o)) as [rt' |] eqn:Hrt; try discriminate.
  destruct (to_key customer) as [| ck'] eqn:Hk; try discriminate.
  destruct (stored_data (kind_of o) record) as [| [| | | | | d']] eqn:Hd; try discriminate.
  destruct (subscript record "status") as [| [| | | s | |]] eqn:Hst; try discriminate.
  destruct (status_word (kind_of o)) as [w |] eqn:Hw; try discriminate.
  destruct (substr w s) eqn:Hsub; try discriminate.
  injection H as -> -> ->.
  rewrite (process_record_kind_rule _ _ _ Ho).
  destruct (kind_of o); cbn [record_type status_word] in Hrt, Hw; try discriminate;
    injection Hrt as <-; injection Hw as <-;
    cbn [kind_rule status_word record_type]; rewrite Hst;
    cbn [bind contains ret]; rewrite Hsub; cbn [negb].
  - cbn [stored_data] in Hd. rewrite Hd. cbn [bind].
    apply update_existing_kind with (customer := customer) (ck := ck) (d := d);
      simpl; auto.
  - cbn [contribution bind ret]. cbn [stored_data] in Hd.
    apply bind_inr in Hd as (id & Hid & Hd).
    apply bind_inr in Hd as (st & Hst' & Hd).
    apply bind_inr in Hd as (idk & Hidk & Hd).
    apply update_existing_kind with (customer := customer) (ck := ck) (d := d);
      simpl; auto.
    right. split; [reflexivity |]. exists id, st, idk. auto.
  - cbn [contribution bind ret]. cbn [stored_data] in Hd.
    apply bind_inr in Hd as (id & Hid & Hd).
    apply bind_inr in Hd as (st & Hst' & Hd).
    apply bind_inr in Hd as (idk & Hidk & Hd).
    apply update_existing_kind with (customer := customer) (ck := ck) (d := d);
      simpl; auto.
    right. split; [reflexivity |]. exists id, st, idk. auto.
Qed.

Lemma repeated_customer_exception_witness :
  _process_ ([account_record "cus_1" "cus_1"]
             ++ [status_record "payment_intent" "cus_1" "pi_1" "succeeded"])
  = inl (if dict_mem [(KStr "id", VStr "cus_1")] (KStr "payments")
         then AttributeError else KeyError).
Proof.
  apply (repeated_customer_exception
           [account_record "cus_1" "cus_1"]
           [(KStr "cus_1", VDict [(KStr "id", VStr "cus_1")])]
           (status_record "payment_intent" "cus_1" "pi_1" "succeeded")
           (KStr "cus_1") "payments" [(KStr "pi_1", VStr "succeeded")]);
    reflexivity.
Defined.

End Collisions.

(** ** The defaults of [StripeConnectionParams] at construction *)

Module Defaults.

Import Provider.

(** A configuration that gives only the key gets the declared defaults, and
    all of them are truthy, so the constructor sets the client to 2 network
    retries, log level "info" and telemetry on, whatever the client had
    before. *)
Theorem key_only_configuration_applies_defaults :
  forall (u k : string) (rp : option StripeRequestParams) (w : world),
    fst (__init__
           {| url := u;
              config := Some {| connection_params :=
                                  make_StripeConnectionParams (Given (Some k))
                                    Omitted Omitted Omitted;
                                request_params := rp |} |} w)
    = inr tt
    /\ stripe (snd (__init__
           {| url := u;
              config := Some {| connection_params :=
                                  make_StripeConnectionParams (Given (Some k))
                                    Omitted Omitted Omitted;
                                request_params := rp |} |} w))
       = {| stripe_api_key := VStr k;
            stripe_max_network_retries := VInt 2;
            stripe_enable_telemetry := VBool true;
            stripe_log := VStr "info" |}.
Proof.
  intros u k rp w. destruct rp; split; reflexivity.
Qed.

End Defaults.

(** ** The status filter is a containment test *)

Module SubstringFilter.

Import Kinds PyFacts Aggregator AggregatorFacts AggregatorSpec Contributions Examples.




End SubstringFilter.
